(** * Encoders of rllib/core/models/tf/encoder.py

    A shallow embedding of the TensorFlow encoders of RLlib's model
    catalogue (TfCNNEncoder, TfMLPEncoder, TfLSTMEncoder and
    TfActorCriticEncoder) and of the contract layer around them
    (tensor specs, spec dictionaries, nested dictionaries), with the
    properties the specification states about them.

    Tensors are modelled by their dtype, their shape and their indexing
    function; Python exceptions by an error monad; dictionaries by
    finite maps with string keys. *)

From stdpp Require Import base gmap strings list.
From Stdlib Require Import Ascii Lia.

Set Warnings "-register-all".

(** ** Exceptions and the error monad *)

(** Where a spec check stopped: the path of the offending key and what
    was expected and found there. *)
Inductive Violation :=
  | MissingKey (path : list string)
  | NotATensor (path : list string)
  | NotAMapping (path : list string)
  | RankMismatch (path : list string) (expected actual : nat)
  | DimMismatch (path : list string) (dim : string) (expected actual : nat).

Inductive Exception :=
  | KeyError (key : string)
  | IndexError
  | AttributeError (attr : string)
  | TypeError
  | ValueError
  | InvalidArgumentError
  | InputSpecViolation (v : Violation)
  | OutputSpecViolation (v : Violation).

Inductive result (A : Type) :=
  | Ok (a : A)
  | Raise (e : Exception).
Arguments Ok {A} a.
Arguments Raise {A} e.

#[global] Instance result_ret : MRet result := @Ok.
#[global] Instance result_bind : MBind result := λ A B f m,
  match m with
  | Ok a => f a
  | Raise e => Raise e
  end.

#[global] Instance result_fmap : FMap result := λ A B f m,
  match m with
  | Ok a => Ok (f a)
  | Raise e => Raise e
  end.

Arguments result_bind {A B} f !m /.
Arguments result_fmap {A B} f !m /.

Definition is_Ok {A} (m : result A) : Prop := ∃ a, m = Ok a.

(** [l[i]] on a Python tuple or list. *)
Definition getitem_list {A} (l : list A) (i : nat) : result A :=
  match l !! i with
  | Some x => Ok x
  | None => Raise IndexError
  end.

(** [for x in xs: s = f(s, x)], stopping at the first exception. *)
Fixpoint foldM {S X} (f : S → X → result S) (xs : list X) (s : S) : result S :=
  match xs with
  | [] => Ok s
  | x :: xs => s' ← f s x; foldM f xs s'
  end.

Definition enumerate {X} (xs : list X) : list (nat * X) :=
  zip (seq 0 (length xs)) xs.

(** ** Tensors and the TensorFlow operations the encoders call *)

Inductive DType := float32 | float64 | int32 | int64.

#[global] Instance DType_eq_dec : EqDecision DType.
Proof. solve_decision. Defined.

(** The element type of tensors and the two facts about numbers the
    encoders rely on: there is a zero, and values can be cast. *)
Class Scalars := {
  scalar : Type;
  zero : scalar;
  cast_scalar : DType → scalar → scalar;
}.

Section Tensors.
Context `{Scalars}.

Record Tensor := {
  dtype : DType;
  shape : list nat;
  val : list nat → scalar;
}.

Definition rank (x : Tensor) : nat := length (shape x).

End Tensors.

Module tf.
Section Ops.
Context `{Scalars}.

(** [tf.zeros(shape)]; float32 is the default dtype. *)
Definition zeros (sh : list nat) : Tensor :=
  {| dtype := float32; shape := sh; val := λ _, zero |}.

(** [tf.cast(x, dtype)]. *)
Definition cast (x : Tensor) (d : DType) : Tensor :=
  {| dtype := d; shape := shape x; val := λ idx, cast_scalar d (val x idx) |}.

(** Position of axis [d] in [perm]. *)
Definition position (d : nat) (perm : list nat) : nat :=
  match list_find (λ p, p = d) perm with
  | Some (k, _) => k
  | None => 0
  end.

Definition is_perm (perm : list nat) (n : nat) : Prop :=
  length perm = n ∧ Forall (λ d, d ∈ perm) (seq 0 n).

(** [tf.transpose(x, perm=perm)]: axis [k] of the result is axis
    [perm[k]] of [x]; [perm] must be a permutation of the axes. *)
Definition transpose (x : Tensor) (perm : list nat) : result Tensor :=
  if decide (is_perm perm (rank x)) then
    Ok {| dtype := dtype x;
          shape := (λ p, nth p (shape x) 0) <$> perm;
          val := λ idx,
            val x ((λ d, nth (position d perm) idx 0) <$> seq 0 (rank x)) |}
  else Raise InvalidArgumentError.

(** [x[i]]: the [i]-th slice along the first axis. *)
Definition getitem (x : Tensor) (i : nat) : result Tensor :=
  match shape x with
  | [] => Raise InvalidArgumentError
  | n :: sh =>
    if decide (i < n) then
      Ok {| dtype := dtype x; shape := sh; val := λ idx, val x (i :: idx) |}
    else Raise InvalidArgumentError
  end.

(** [tf.stack(values, axis)]: reads [values[0]] for the rank, and packs
    tensors of one shape and dtype along a new axis. *)
Definition stack (values : list Tensor) (axis : nat) : result Tensor :=
  match values with
  | [] => Raise IndexError
  | v0 :: _ =>
    if decide (rank v0 < axis) then Raise ValueError
    else if decide (Forall (λ v, shape v = shape v0 ∧ dtype v = dtype v0) values) then
      Ok {| dtype := dtype v0;
            shape := take axis (shape v0) ++ length values :: drop axis (shape v0);
            val := λ idx, val (nth (nth axis idx 0) values v0) (delete axis idx) |}
    else Raise InvalidArgumentError
  end.

End Ops.
End tf.

(** ** Nested dictionaries *)

Section Values.
Context `{Scalars}.

(** What a dictionary entry can hold: [None], a tensor, or a mapping. *)
Inductive value :=
  | VNone
  | VTensor (t : Tensor)
  | VDict (d : gmap string value).

(** [d[key]]. *)
Definition dict_getitem (d : gmap string value) (key : string) : result value :=
  match d !! key with
  | Some v => Ok v
  | None => Raise (KeyError key)
  end.

(** An argument of a tensor operation or layer must be a tensor. *)
Definition as_tensor (v : value) : result Tensor :=
  match v with
  | VTensor t => Ok t
  | VNone => Raise ValueError
  | VDict _ => Raise TypeError
  end.

(** [v[key]] on an arbitrary value. *)
Definition subscript (v : value) (key : string) : result value :=
  match v with
  | VDict d => dict_getitem d key
  | _ => Raise TypeError
  end.

End Values.

Module tree.
Section MapStructure.
Context `{Scalars}.

Definition collect (k : string) (r : result value)
    (acc : result (gmap string value)) : result (gmap string value) :=
  m ← acc; v ← r; Ok (<[k := v]> m).

(** A mapping of results as the result of a mapping. *)
Definition sequence (m : gmap string (result value)) : result (gmap string value) :=
  map_fold collect (Ok ∅) m.

(** [tree.map_structure(func, structure)]: [func] is applied to every
    leaf (everything that is not a mapping), the nesting is kept. *)
Fixpoint map_structure (func : value → result value) (v : value) : result value :=
  match v with
  | VDict d => VDict <$> sequence (map_structure func <$> d)
  | leaf => func leaf
  end.

End MapStructure.
End tree.

(** ** Tensor specs and spec dictionaries *)

Module specs.

(** Modelled from the spec: specs_base.TensorSpec and specs_tf.TfTensorSpec
    are not among the sources. A tensor spec is an ordered list of named
    dimensions, each unconstrained or bound to a size. *)
Record TensorSpec := {
  expected_shape : list string;
  shape_vals : list (string * nat);
}.

Definition comma : ascii := ","%char.
Definition space : ascii := " "%char.

(** The dimension names of a shape string such as ["b, w, h, c"]: blanks
    are dropped and the rest is split at the commas. *)
Fixpoint parse_dims (s : string) (cur : string) : list string :=
  match s with
  | EmptyString => [cur]
  | String c s' =>
    if decide (c = comma) then cur :: parse_dims s' EmptyString
    else if decide (c = space) then parse_dims s' cur
    else parse_dims s' (cur +:+ String c EmptyString)
  end.

(** [TfTensorSpec("b, d", d=n)]. The sizes are kept as they are given:
    the check of the program's constructor, which refuses a size that is
    not positive, is not modelled, so a spec with a size of zero exists
    here. *)
Definition TfTensorSpec (shape : string) (kwargs : list (string * nat)) : TensorSpec :=
  {| expected_shape := parse_dims shape EmptyString; shape_vals := kwargs |}.

(** The size a dimension name is bound to, if any. *)
Definition bound (ts : TensorSpec) (name : string) : option nat :=
  (λ p, p.2.2) <$> list_find (λ kv, kv.1 = name) (shape_vals ts).

Definition full_shape (ts : TensorSpec) : list (string * option nat) :=
  (λ name, (name, bound ts name)) <$> expected_shape ts.

(** Modelled from the spec: specs_dict.SpecDict is not among the sources.
    An entry is [None] (the key must be present, its value is not
    constrained), a tensor spec, or a nested spec dictionary. *)
Inductive Spec :=
  | SpecNone
  | SpecTensor (ts : TensorSpec)
  | SpecDict (entries : list (string * Spec)).

Section Validate.
Context `{Scalars}.

(** The first bound dimension whose size differs. *)
Fixpoint check_dims (path : list string) (dims : list (string * option nat))
    (sh : list nat) : option Violation :=
  match dims, sh with
  | (name, Some n) :: dims, a :: sh =>
    if decide (a = n) then check_dims path dims sh
    else Some (DimMismatch path name n a)
  | (_, None) :: dims, _ :: sh => check_dims path dims sh
  | _, _ => None
  end.

Definition check_tensor (path : list string) (ts : TensorSpec) (t : Tensor)
    : option Violation :=
  if decide (length (expected_shape ts) = rank t) then
    check_dims path (full_shape ts) (shape t)
  else Some (RankMismatch path (length (expected_shape ts)) (rank t)).

(** Modelled from the spec: validation of data against a spec; [None]
    when the data conforms, otherwise the first violation met while
    walking the spec's entries in order. Keys of the data that the spec
    does not list are ignored. *)
Fixpoint validate_at (path : list string) (s : Spec) (v : value) : option Violation :=
  match s with
  | SpecNone => None
  | SpecTensor ts =>
    match v with
    | VTensor t => check_tensor path ts t
    | _ => Some (NotATensor path)
    end
  | SpecDict entries =>
    match v with
    | VDict d =>
      (fix go (es : list (string * Spec)) : option Violation :=
         match es with
         | [] => None
         | (k, s') :: es =>
           match d !! k with
           | None => Some (MissingKey (path ++ [k]))
           | Some v' =>
             match validate_at (path ++ [k]) s' v' with
             | Some viol => Some viol
             | None => go es
             end
           end
         end) entries
    | _ => Some (NotAMapping path)
    end
  end.

Definition validate (s : Spec) (data : gmap string value) : option Violation :=
  validate_at [] s (VDict data).

(** What it means for data to break a spec at a given place, stated
    without reference to the order of the walk. *)
Inductive violates : list string → Spec → value → Violation → Prop :=
  | violates_not_tensor path ts v :
      (∀ t, v ≠ VTensor t) →
      violates path (SpecTensor ts) v (NotATensor path)
  | violates_rank path ts t :
      length (expected_shape ts) ≠ rank t →
      violates path (SpecTensor ts) (VTensor t)
        (RankMismatch path (length (expected_shape ts)) (rank t))
  | violates_dim path ts t i name n a :
      length (expected_shape ts) = rank t →
      expected_shape ts !! i = Some name →
      bound ts name = Some n →
      shape t !! i = Some a →
      a ≠ n →
      violates path (SpecTensor ts) (VTensor t) (DimMismatch path name n a)
  | violates_not_mapping path es v :
      (∀ d, v ≠ VDict d) →
      violates path (SpecDict es) v (NotAMapping path)
  | violates_missing path es d k s :
      (k, s) ∈ es →
      d !! k = None →
      violates path (SpecDict es) (VDict d) (MissingKey (path ++ [k]))
  | violates_nested path es d k s v viol :
      (k, s) ∈ es →
      d !! k = Some v →
      violates (path ++ [k]) s v viol →
      violates path (SpecDict es) (VDict d) viol.

End Validate.
End specs.

Import specs.

(** ** Reserved keys *)

(** The key constants of models/base.py and policy/sample_batch.py. *)
Definition STATE_IN : string := "state_in".
Definition STATE_OUT : string := "state_out".
Definition ENCODER_OUT : string := "encoder_out".
Definition ACTOR : string := "actor".
Definition CRITIC : string := "critic".

Module SampleBatch.
Definition OBS : string := "obs".
Definition SEQ_LENS : string := "seq_lens".
End SampleBatch.

(** ** Configurations *)

(** Modelled from the spec: models/configs.py is not among the sources.
    The fields are the ones the encoders read and the specification
    lists. *)
Module CNNEncoderConfig.
Record t := {
  input_dims : list nat;
  output_dims : list nat;
  cnn_filter_specifiers : list (list nat);
  cnn_activation : string;
  cnn_use_layernorm : bool;
  use_bias : bool;
  output_activation : string;
}.
End CNNEncoderConfig.

Module MLPEncoderConfig.
Record t := {
  input_dims : list nat;
  output_dims : list nat;
  hidden_layer_dims : list nat;
  hidden_layer_activation : string;
  hidden_layer_use_layernorm : bool;
  output_activation : string;
  use_bias : bool;
}.
End MLPEncoderConfig.

(** Modelled from the spec: the recurrent configuration. The
    specification names the layer count [num_lstm_layers]; the attribute
    [num_layers], which only [get_initial_state] reads, is not among the
    fields it lists, so it is optional here: [None] stands for a class
    that does not define it. *)
Module LSTMEncoderConfig.
Record t := {
  input_dims : list nat;
  output_dims : list nat;
  hidden_dim : nat;
  num_lstm_layers : nat;
  batch_major : bool;
  use_bias : bool;
  num_layers : option nat;
}.
End LSTMEncoderConfig.

(** ** Layers *)

Section Layers.
Context `{Scalars}.

(** A layer object, by what calling it does. *)
Definition Layer : Type := Tensor → result Tensor.

(** A recurrent layer built with [return_sequences=True] and
    [return_state=True]: called on a sequence and an initial (h, c) pair
    it returns the output sequence and the final h and c. *)
Definition RecLayer : Type := Tensor → Tensor * Tensor → result (Tensor * Tensor * Tensor).

(** [tf.keras.Sequential(layers)]. *)
Definition Sequential (layers : list Layer) : Layer :=
  λ x, foldM (λ x (layer : Layer), layer x) layers x.

(** The layer constructors the encoders call; they belong to Keras and to
    models/tf/primitives.py. The first argument numbers the instance:
    every layer object has parameters of its own. *)
Class Keras := {
  Activation : Type;
  get_activation_fn : string → string → option Activation;
  Dense : nat → nat → option Activation → bool → Layer;
  Flatten : Layer;
  LSTM : nat → nat → bool → bool → RecLayer;
  TfCNN : nat → list nat → list (list nat) → string → bool → bool → Layer;
  TfMLP : nat → nat → list nat → string → bool → nat → string → bool → Layer;
}.

End Layers.

(** ** Construction *)

(** The base-class initialisers a constructor body calls on [self]. *)
Inductive InitCall :=
  | TfModel_init
  | Encoder_init
  | ActorCriticEncoder_init.

#[global] Instance InitCall_eq_dec : EqDecision InitCall.
Proof. solve_decision. Defined.

(** What construction changes: the log of initialiser calls and the
    number of layer objects created so far. *)
Record InitState := {
  calls : list InitCall;
  layers_created : nat;
}.

Definition Init (A : Type) : Type := InitState → InitState * result A.

Definition init_ret {A} (a : A) : Init A := λ s, (s, Ok a).

Definition init_bind {A B} (m : Init A) (f : A → Init B) : Init B :=
  λ s, match m s with
       | (s', Ok a) => f a s'
       | (s', Raise e) => (s', Raise e)
       end.

Notation "x ←ᵢ m ; k" := (init_bind m (λ x, k))
  (at level 20, m at level 100, k at level 200, right associativity, only parsing).
Notation "m ;;ᵢ k" := (init_bind m (λ _, k))
  (at level 100, k at level 200, right associativity, only parsing).

Definition call_init (c : InitCall) : Init unit :=
  λ s, ({| calls := calls s ++ [c]; layers_created := layers_created s |}, Ok tt).

(** Creating a layer object: it gets the next instance number. *)
Definition new_layer {L} (mk : nat → L) : Init L :=
  λ s, ({| calls := calls s; layers_created := S (layers_created s) |},
        Ok (mk (layers_created s))).

Definition lift {A} (r : result A) : Init A := λ s, (s, r).

(** [for _ in range(n): layers.append(mk())]. *)
Fixpoint append_layers {L} (n : nat) (mk : nat → L) (layers : list L) : Init (list L) :=
  match n with
  | 0 => init_ret layers
  | S n => layer ←ᵢ new_layer mk; append_layers n mk (layers ++ [layer])
  end.

Definition init_state0 : InitState := {| calls := []; layers_created := 0 |}.

(** ** The encoders *)

Module base.
Section Contract.
Context `{Scalars}.

(** What every encoder provides (models/base.py: Model and Encoder). *)
Class Encoder (E : Type) := {
  get_input_specs : E → result Spec;
  get_output_specs : E → result Spec;
  _forward : E → gmap string value → result (gmap string value);
}.

(** Modelled from the spec: the body of [forward] is in models/base.py
    and models/tf/base.py, which are not among the sources. It validates
    the inputs against the input specs, runs [_forward], validates the
    result against the output specs and returns it. *)
Definition forward `{Encoder E} (self : E) (inputs : gmap string value)
    : result (gmap string value) :=
  input_specs ← get_input_specs self;
  match validate input_specs inputs with
  | Some v => Raise (InputSpecViolation v)
  | None =>
    outputs ← _forward self inputs;
    output_specs ← get_output_specs self;
    match validate output_specs outputs with
    | Some v => Raise (OutputSpecViolation v)
    | None => Ok outputs
    end
  end.

End Contract.
End base.

Module TfCNNEncoder.
Section Def.
Context `{Scalars} `{!Keras}.

Record t := {
  config : CNNEncoderConfig.t;
  net : Layer;
}.

Definition __init__ (config : CNNEncoderConfig.t) : Init t :=
  call_init TfModel_init ;;ᵢ
  call_init Encoder_init ;;ᵢ
  let layers := [] in
  cnn ←ᵢ new_layer (λ id, TfCNN id
    (CNNEncoderConfig.input_dims config)
    (CNNEncoderConfig.cnn_filter_specifiers config)
    (CNNEncoderConfig.cnn_activation config)
    (CNNEncoderConfig.cnn_use_layernorm config)
    (CNNEncoderConfig.use_bias config));
  let layers := layers ++ [cnn] in
  let layers := layers ++ [Flatten] in
  let output_activation :=
    get_activation_fn (CNNEncoderConfig.output_activation config) "tf2" in
  d ←ᵢ lift (getitem_list (CNNEncoderConfig.output_dims config) 0);
  dense ←ᵢ new_layer (λ id, Dense id d output_activation true);
  let layers := layers ++ [dense] in
  init_ret {| config := config; net := Sequential layers |}.

Definition get_input_specs (self : t) : result Spec :=
  w ← getitem_list (CNNEncoderConfig.input_dims (config self)) 0;
  h ← getitem_list (CNNEncoderConfig.input_dims (config self)) 1;
  c ← getitem_list (CNNEncoderConfig.input_dims (config self)) 2;
  Ok (SpecDict [
    (SampleBatch.OBS, SpecTensor (TfTensorSpec "b, w, h, c" [("w", w); ("h", h); ("c", c)]));
    (STATE_IN, SpecNone);
    (SampleBatch.SEQ_LENS, SpecNone)]).

Definition get_output_specs (self : t) : result Spec :=
  d ← getitem_list (CNNEncoderConfig.output_dims (config self)) 0;
  Ok (SpecDict [
    (ENCODER_OUT, SpecTensor (TfTensorSpec "b, d" [("d", d)]));
    (STATE_OUT, SpecNone)]).

Definition _forward (self : t) (inputs : gmap string value)
    : result (gmap string value) :=
  obs ← dict_getitem inputs SampleBatch.OBS;
  x ← as_tensor obs;
  encoder_out ← net self x;
  state_out ← dict_getitem inputs STATE_IN;
  Ok (<[STATE_OUT := state_out]> (<[ENCODER_OUT := VTensor encoder_out]> ∅)).

#[global] Instance encoder : base.Encoder t := {|
  base.get_input_specs := get_input_specs;
  base.get_output_specs := get_output_specs;
  base._forward := _forward;
|}.

End Def.
End TfCNNEncoder.

Module TfMLPEncoder.
Section Def.
Context `{Scalars} `{!Keras}.

Record t := {
  config : MLPEncoderConfig.t;
  net : Layer;
}.

Definition __init__ (config : MLPEncoderConfig.t) : Init t :=
  call_init TfModel_init ;;ᵢ
  call_init Encoder_init ;;ᵢ
  input_dim ←ᵢ lift (getitem_list (MLPEncoderConfig.input_dims config) 0);
  output_dim ←ᵢ lift (getitem_list (MLPEncoderConfig.output_dims config) 0);
  net ←ᵢ new_layer (λ id, TfMLP id
    input_dim
    (MLPEncoderConfig.hidden_layer_dims config)
    (MLPEncoderConfig.hidden_layer_activation config)
    (MLPEncoderConfig.hidden_layer_use_layernorm config)
    output_dim
    (MLPEncoderConfig.output_activation config)
    (MLPEncoderConfig.use_bias config));
  init_ret {| config := config; net := net |}.

Definition get_input_specs (self : t) : result Spec :=
  d ← getitem_list (MLPEncoderConfig.input_dims (config self)) 0;
  Ok (SpecDict [
    (SampleBatch.OBS, SpecTensor (TfTensorSpec "b, d" [("d", d)]))]).

Definition get_output_specs (self : t) : result Spec :=
  d ← getitem_list (MLPEncoderConfig.output_dims (config self)) 0;
  Ok (SpecDict [
    (ENCODER_OUT, SpecTensor (TfTensorSpec "b, d" [("d", d)]));
    (STATE_OUT, SpecNone)]).

Definition _forward (self : t) (inputs : gmap string value)
    : result (gmap string value) :=
  obs ← dict_getitem inputs SampleBatch.OBS;
  x ← as_tensor obs;
  encoder_out ← net self x;
  Ok (<[STATE_OUT := VNone]> (<[ENCODER_OUT := VTensor encoder_out]> ∅)).

#[global] Instance encoder : base.Encoder t := {|
  base.get_input_specs := get_input_specs;
  base.get_output_specs := get_output_specs;
  base._forward := _forward;
|}.

End Def.
End TfMLPEncoder.

Module TfLSTMEncoder.
Section Def.
Context `{Scalars} `{!Keras}.

Record t := {
  config : LSTMEncoderConfig.t;
  lstms : list RecLayer;
  linear : Layer;
}.

Definition __init__ (config : LSTMEncoderConfig.t) : Init t :=
  call_init TfModel_init ;;ᵢ
  lstms ←ᵢ append_layers (LSTMEncoderConfig.num_lstm_layers config)
    (λ id, LSTM id
       (LSTMEncoderConfig.hidden_dim config)
       (negb (LSTMEncoderConfig.batch_major config))
       (LSTMEncoderConfig.use_bias config)) [];
  units ←ᵢ lift (getitem_list (LSTMEncoderConfig.output_dims config) 0);
  linear ←ᵢ new_layer (λ id, Dense id units None (LSTMEncoderConfig.use_bias config));
  init_ret {| config := config; lstms := lstms; linear := linear |}.

Definition get_input_specs (self : t) : result Spec :=
  d ← getitem_list (LSTMEncoderConfig.input_dims (config self)) 0;
  Ok (SpecDict [
    (SampleBatch.OBS, SpecTensor (TfTensorSpec "b, t, d" [("d", d)]));
    (STATE_IN, SpecDict [
      ("h", SpecTensor (TfTensorSpec "b, l, h"
        [("h", LSTMEncoderConfig.hidden_dim (config self));
         ("l", LSTMEncoderConfig.num_lstm_layers (config self))]));
      ("c", SpecTensor (TfTensorSpec "b, l, h"
        [("h", LSTMEncoderConfig.hidden_dim (config self));
         ("l", LSTMEncoderConfig.num_lstm_layers (config self))]))])]).

Definition get_output_specs (self : t) : result Spec :=
  d ← getitem_list (LSTMEncoderConfig.output_dims (config self)) 0;
  Ok (SpecDict [
    (ENCODER_OUT, SpecTensor (TfTensorSpec "b, t, d" [("d", d)]));
    (STATE_OUT, SpecDict [
      ("h", SpecTensor (TfTensorSpec "b, l, h"
        [("h", LSTMEncoderConfig.hidden_dim (config self));
         ("l", LSTMEncoderConfig.num_lstm_layers (config self))]));
      ("c", SpecTensor (TfTensorSpec "b, l, h"
        [("h", LSTMEncoderConfig.hidden_dim (config self));
         ("l", LSTMEncoderConfig.num_lstm_layers (config self))]))])]).

Definition get_initial_state (self : t) : result (gmap string value) :=
  match LSTMEncoderConfig.num_layers (config self) with
  | None => Raise (AttributeError "num_layers")
  | Some num_layers =>
    Ok (<["c" := VTensor (tf.zeros [num_layers; LSTMEncoderConfig.hidden_dim (config self)])]>
       (<["h" := VTensor (tf.zeros [num_layers; LSTMEncoderConfig.hidden_dim (config self)])]> ∅))
  end.

(** [lambda s: tf.transpose(s, perm=[1, 0, 2])]. *)
Definition layers_first (s : value) : result value :=
  x ← as_tensor s; VTensor <$> tf.transpose x [1; 0; 2].

(** [states_in[name][i]]. *)
Definition state_slice (states_in : value) (name : string) (i : nat) : result Tensor :=
  s ← subscript states_in name; x ← as_tensor s; tf.getitem x i.

(** The body of the loop over [enumerate(self.lstms)]. *)
Definition lstm_step (states_in : value)
    (acc : Tensor * list Tensor * list Tensor) (il : nat * RecLayer)
    : result (Tensor * list Tensor * list Tensor) :=
  let '(out, states_out_h, states_out_c) := acc in
  let '(i, layer) := il in
  h_in ← state_slice states_in "h" i;
  c_in ← state_slice states_in "c" i;
  '(out, h, c) ← layer out (h_in, c_in);
  Ok (out, states_out_h ++ [h], states_out_c ++ [c]).

Definition _forward (self : t) (inputs : gmap string value)
    : result (gmap string value) :=
  obs ← dict_getitem inputs SampleBatch.OBS;
  x ← as_tensor obs;
  let out := tf.cast x float32 in
  state_in ← dict_getitem inputs STATE_IN;
  states_in ← tree.map_structure layers_first state_in;
  '(out, states_out_h, states_out_c) ←
    foldM (lstm_step states_in) (enumerate (lstms self)) (out, [], []);
  out ← linear self out;
  h ← tf.stack states_out_h 1;
  c ← tf.stack states_out_c 1;
  Ok (<[STATE_OUT := VDict (<["c" := VTensor c]> (<["h" := VTensor h]> ∅))]>
     (<[ENCODER_OUT := VTensor out]> ∅)).

#[global] Instance encoder : base.Encoder t := {|
  base.get_input_specs := get_input_specs;
  base.get_output_specs := get_output_specs;
  base._forward := _forward;
|}.

(** *** The algorithm as the specification words it

    (1) cast the input; (2) transpose the incoming h and c to
    layers-first; (3) run the cells in order, cell [i] on the [i]-th
    slices and on the previous cell's output sequence; (4) stack the
    per-layer h and c along axis 1; (5) project the last cell's output
    sequence. *)

Fixpoint run_cells (h_lf c_lf : Tensor) (i : nat) (cells : list RecLayer) (seq_in : Tensor)
    : result (Tensor * list (Tensor * Tensor)) :=
  match cells with
  | [] => Ok (seq_in, [])
  | cell :: cells =>
    h_i ← tf.getitem h_lf i;
    c_i ← tf.getitem c_lf i;
    '(seq_out, h, c) ← cell seq_in (h_i, c_i);
    '(last, states) ← run_cells h_lf c_lf (S i) cells seq_out;
    Ok (last, (h, c) :: states)
  end.

Definition specified_forward (self : t) (obs h_in c_in : Tensor)
    : result (gmap string value) :=
  let x := tf.cast obs float32 in
  h_lf ← tf.transpose h_in [1; 0; 2];
  c_lf ← tf.transpose c_in [1; 0; 2];
  '(last, states) ← run_cells h_lf c_lf 0 (lstms self) x;
  h_out ← tf.stack (fst <$> states) 1;
  c_out ← tf.stack (snd <$> states) 1;
  y ← linear self last;
  Ok (<[ENCODER_OUT := VTensor y]>
     (<[STATE_OUT := VDict (<["h" := VTensor h_out]> (<["c" := VTensor c_out]> ∅))]> ∅)).

End Def.
End TfLSTMEncoder.

Module TfActorCriticEncoder.

(** The composite owns an encoder for the actor path and one for the
    critic path. *)
Record t (EA EC : Type) := {
  actor_encoder : EA;
  critic_encoder : EC;
}.
Arguments actor_encoder {EA EC} _.
Arguments critic_encoder {EA EC} _.

Section Def.
Context `{Scalars}.

(** [ActorCriticEncoder.__init__] builds the two sub-encoders from the
    configuration; it is in models/base.py, so its effect is taken as
    the argument [build]. *)
Definition __init__ {Config EA EC} (build : Config → result (t EA EC)) (config : Config)
    : Init (t EA EC) :=
  call_init TfModel_init ;;ᵢ
  call_init ActorCriticEncoder_init ;;ᵢ
  lift (build config).

(** Modelled from the spec: the composite's forward is inherited from
    ActorCriticEncoder in models/base.py, which is not among the sources.
    It calls both sub-encoders' forward with the same inputs and returns
    each one's full output under a key of its own. *)
Definition forward `{!base.Encoder EA, !base.Encoder EC} (self : t EA EC)
    (inputs : gmap string value) : result (gmap string value) :=
  actor_out ← base.forward (actor_encoder self) inputs;
  critic_out ← base.forward (critic_encoder self) inputs;
  Ok (<[CRITIC := VDict critic_out]> (<[ACTOR := VDict actor_out]> ∅)).

End Def.
End TfActorCriticEncoder.

(** ** Layer contracts

    What the encoders need from the layer objects they own: the shapes
    Keras documents for them. *)

Section Contracts.
Context `{Scalars}.

(** A network taking [(b, in_dims...)] to [(b, out_dim)]. *)
Definition net_maps (net : Layer) (in_dims : list nat) (out_dim : nat) : Prop :=
  ∀ x b, shape x = b :: in_dims →
    ∃ y, net x = Ok y ∧ shape y = [b; out_dim].

(** A dense layer with [units] outputs acts on the last axis. *)
Definition dense_maps (layer : Layer) (units : nat) : Prop :=
  ∀ x pre d, shape x = pre ++ [d] → pre ≠ [] →
    ∃ y, layer x = Ok y ∧ shape y = pre ++ [units].

(** The sequence shape for a batch of [b] sequences of [t] steps. *)
Definition seq_shape (time_major : bool) (b t d : nat) : list nat :=
  if time_major then [t; b; d] else [b; t; d].

(** An LSTM layer with [units] cells accepts a sequence of at least one
    step together with an [h] and a [c] of the dtype of the sequence and
    of shape [(b, units)] for the same batch size [b], no size being
    zero. Nothing is asked of the layer on a state of another dtype, on a
    sequence without steps or on an empty axis. *)
Definition lstm_accepts (layer : RecLayer) (units : nat) (time_major : bool) : Prop :=
  ∀ x h c b t d,
    shape x = seq_shape time_major b t d →
    shape h = [b; units] → shape c = [b; units] →
    dtype h = dtype x → dtype c = dtype x →
    1 ≤ b → 1 ≤ t → 1 ≤ d → 1 ≤ units →
    ∃ o h' c', layer x (h, c) = Ok (o, h', c') ∧
      shape o = seq_shape time_major b t units ∧ dtype o = dtype x ∧
      shape h' = [b; units] ∧ shape c' = [b; units] ∧
      dtype h' = dtype h ∧ dtype c' = dtype c.


(** The layer constructors build layers with these shapes. *)
Class KerasShapes `{!Keras} : Prop := {
  Dense_shape id units act use_bias : dense_maps (Dense id units act use_bias) units;
  Flatten_shape x b rest :
    shape x = b :: rest →
    ∃ y, Flatten x = Ok y ∧ shape y = [b; foldr Nat.mul 1 rest];
  TfCNN_shape id dims filters act ln use_bias x b :
    shape x = b :: dims →
    ∃ y rest, TfCNN id dims filters act ln use_bias x = Ok y ∧ shape y = b :: rest;
  TfMLP_shape id din hidden act ln dout oact use_bias :
    net_maps (TfMLP id din hidden act ln dout oact use_bias) [din] dout;
  LSTM_shape id units time_major use_bias :
    lstm_accepts (LSTM id units time_major use_bias) units time_major;
}.

End Contracts.

(** ** State mappings with further entries *)

(** A state mapping of tensors, those besides "h" and "c" of rank 3. *)
Definition further_entries_of_rank_3 `{Scalars} (d : gmap string value) : Prop :=
  ∀ k v, d !! k = Some v → ∃ x, v = VTensor x ∧ (k = "h" ∨ k = "c" ∨ rank x = 3).

(** ** A small model of the layers

    Integer-valued tensors and layers that compute the documented shapes
    (and simple values), for running the encoders on concrete inputs. *)

Module model.

#[export] Instance Z_scalars : Scalars := {|
  scalar := Z;
  zero := 0%Z;
  cast_scalar := λ _ x, x;
|}.

(** A tensor whose element at an index encodes the index in base ten. *)
Definition iota (sh : list nat) : Tensor :=
  {| dtype := float32; shape := sh;
     val := λ idx, Z.of_nat (foldl (λ acc i, 10 * acc + i) 0 idx) |}.

Definition dense (id units : nat) : Layer := λ x,
  match shape x with
  | [] | [_] => Raise ValueError
  | sh => Ok {| dtype := dtype x; shape := removelast sh ++ [units];
                val := λ idx, Z.add (val x (removelast idx ++ [0])) (Z.of_nat id) |}
  end.

Definition flatten : Layer := λ x,
  match shape x with
  | [] => Raise ValueError
  | b :: rest => Ok {| dtype := dtype x; shape := [b; foldr Nat.mul 1 rest];
                       val := λ idx, val x (nth 0 idx 0 :: ((λ _, 0) <$> rest)) |}
  end.

Definition lstm (id units : nat) (time_major : bool) : RecLayer := λ x '(h, c),
  match shape x with
  | [d0; d1; _] =>
    let b := if time_major then d1 else d0 in
    if decide (shape h = [b; units] ∧ shape c = [b; units]) then
      Ok ({| dtype := dtype x; shape := [d0; d1; units]; val := λ idx, val x (removelast idx ++ [0]) |},
          {| dtype := dtype h; shape := [b; units]; val := λ idx, Z.add (val h idx) 1 |},
          {| dtype := dtype c; shape := [b; units]; val := λ idx, Z.add (val c idx) 2 |})
    else Raise InvalidArgumentError
  | _ => Raise ValueError
  end.

Definition cnn (dims : list nat) : Layer := λ x,
  match shape x with
  | b :: rest => if decide (rest = dims) then Ok x else Raise InvalidArgumentError
  | [] => Raise ValueError
  end.

Definition mlp (din dout : nat) : Layer := λ x,
  match shape x with
  | [b; d] =>
    if decide (d = din) then
      Ok {| dtype := dtype x; shape := [b; dout]; val := λ idx, val x [nth 0 idx 0; 0] |}
    else Raise InvalidArgumentError
  | _ => Raise ValueError
  end.

#[export] Instance keras : Keras := {|
  Activation := string;
  get_activation_fn := λ name _, Some name;
  Dense := λ id units _ _, dense id units;
  Flatten := flatten;
  LSTM := λ id units time_major _, lstm id units time_major;
  TfCNN := λ _ dims _ _ _ _, cnn dims;
  TfMLP := λ _ din _ _ _ dout _ _, mlp din dout;
|}.

Definition cnn_config : CNNEncoderConfig.t := {|
  CNNEncoderConfig.input_dims := [4; 4; 3];
  CNNEncoderConfig.output_dims := [8];
  CNNEncoderConfig.cnn_filter_specifiers := [[16; 2; 1]];
  CNNEncoderConfig.cnn_activation := "relu";
  CNNEncoderConfig.cnn_use_layernorm := false;
  CNNEncoderConfig.use_bias := true;
  CNNEncoderConfig.output_activation := "linear";
|}.

Definition mlp_config : MLPEncoderConfig.t := {|
  MLPEncoderConfig.input_dims := [4];
  MLPEncoderConfig.output_dims := [8];
  MLPEncoderConfig.hidden_layer_dims := [16];
  MLPEncoderConfig.hidden_layer_activation := "relu";
  MLPEncoderConfig.hidden_layer_use_layernorm := false;
  MLPEncoderConfig.output_activation := "linear";
  MLPEncoderConfig.use_bias := true;
|}.

(** One layer, hidden size 3; [num_layers] is given the value of
    [num_lstm_layers]. *)
Definition lstm_config : LSTMEncoderConfig.t := {|
  LSTMEncoderConfig.input_dims := [4];
  LSTMEncoderConfig.output_dims := [8];
  LSTMEncoderConfig.hidden_dim := 3;
  LSTMEncoderConfig.num_lstm_layers := 1;
  LSTMEncoderConfig.batch_major := true;
  LSTMEncoderConfig.use_bias := true;
  LSTMEncoderConfig.num_layers := Some 1;
|}.

(** The object a constructor returns when run from the initial state. *)
Definition built {A} (d : A) (m : Init A) : A :=
  match (m init_state0).2 with
  | Ok a => a
  | Raise _ => d
  end.

Definition cnn_encoder : TfCNNEncoder.t :=
  built {| TfCNNEncoder.config := cnn_config; TfCNNEncoder.net := Ok |}
    (TfCNNEncoder.__init__ cnn_config).

Definition mlp_encoder : TfMLPEncoder.t :=
  built {| TfMLPEncoder.config := mlp_config; TfMLPEncoder.net := Ok |}
    (TfMLPEncoder.__init__ mlp_config).

Definition lstm_encoder : TfLSTMEncoder.t :=
  built {| TfLSTMEncoder.config := lstm_config; TfLSTMEncoder.lstms := [];
           TfLSTMEncoder.linear := Ok |}
    (TfLSTMEncoder.__init__ lstm_config).

(** The recurrent configuration of a class without [num_layers]. *)
Definition lstm_config_no_attr : LSTMEncoderConfig.t := {|
  LSTMEncoderConfig.input_dims := [4];
  LSTMEncoderConfig.output_dims := [8];
  LSTMEncoderConfig.hidden_dim := 3;
  LSTMEncoderConfig.num_lstm_layers := 1;
  LSTMEncoderConfig.batch_major := true;
  LSTMEncoderConfig.use_bias := true;
  LSTMEncoderConfig.num_layers := None;
|}.

Definition lstm_encoder_no_attr : TfLSTMEncoder.t :=
  built {| TfLSTMEncoder.config := lstm_config_no_attr; TfLSTMEncoder.lstms := [];
           TfLSTMEncoder.linear := Ok |}
    (TfLSTMEncoder.__init__ lstm_config_no_attr).

(** Inputs of the CNN encoder: an observation of the given shape, a
    state, no sequence lengths. *)
Definition cnn_inputs (obs_shape : list nat) (state_in : value) : gmap string value :=
  <[SampleBatch.SEQ_LENS := VNone]>
    (<[STATE_IN := state_in]>
      (<[SampleBatch.OBS := VTensor (iota obs_shape)]> ∅)).

Definition mlp_inputs (obs_shape : list nat) : gmap string value :=
  <[SampleBatch.OBS := VTensor (iota obs_shape)]> ∅.

(** A recurrent state of two tensors. *)
Definition lstm_state (h c : Tensor) : gmap string value :=
  <["c" := VTensor c]> (<["h" := VTensor h]> ∅).

(** Inputs of the recurrent encoder: an observation and a state. *)
Definition lstm_inputs (obs : Tensor) (state : gmap string value) : gmap string value :=
  <[STATE_IN := VDict state]> (<[SampleBatch.OBS := VTensor obs]> ∅).

(** A batch of 2 sequences of 5 steps with a state for a batch of 2. *)
Definition lstm_inputs_2 : gmap string value :=
  lstm_inputs (iota [2; 5; 4]) (lstm_state (iota [2; 1; 3]) (iota [2; 1; 3])).

(** The same observation with a state for a batch of 3. *)
Definition lstm_inputs_batch_mismatch : gmap string value :=
  lstm_inputs (iota [2; 5; 4]) (lstm_state (iota [3; 1; 3]) (iota [3; 1; 3])).

(** The same observation and state, the state carrying one more entry: a
    step counter per batch element. *)
Definition lstm_inputs_extra_entry : gmap string value :=
  lstm_inputs (iota [2; 5; 4])
    (<["steps" := VTensor (iota [2])]> (lstm_state (iota [2; 1; 3]) (iota [2; 1; 3]))).

(** The value of a computation that succeeded. *)
Definition get {A} (d : A) (r : result A) : A :=
  match r with
  | Ok a => a
  | Raise _ => d
  end.

Definition lstm_outputs_2 : gmap string value :=
  get ∅ (TfLSTMEncoder._forward lstm_encoder lstm_inputs_2).

End model.

(** ** Further encoders and inputs of the small model *)

Module scenarios.
Import model.

(** Two stacked layers. *)
Definition lstm_config_2 : LSTMEncoderConfig.t := {|
  LSTMEncoderConfig.input_dims := [4];
  LSTMEncoderConfig.output_dims := [8];
  LSTMEncoderConfig.hidden_dim := 3;
  LSTMEncoderConfig.num_lstm_layers := 2;
  LSTMEncoderConfig.batch_major := true;
  LSTMEncoderConfig.use_bias := true;
  LSTMEncoderConfig.num_layers := Some 2;
|}.

Definition lstm_encoder_2 : TfLSTMEncoder.t :=
  built {| TfLSTMEncoder.config := lstm_config_2; TfLSTMEncoder.lstms := [];
           TfLSTMEncoder.linear := Ok |}
    (TfLSTMEncoder.__init__ lstm_config_2).

(** No layer at all, and no input dimensions. *)
Definition lstm_config_0 : LSTMEncoderConfig.t := {|
  LSTMEncoderConfig.input_dims := [];
  LSTMEncoderConfig.output_dims := [8];
  LSTMEncoderConfig.hidden_dim := 3;
  LSTMEncoderConfig.num_lstm_layers := 0;
  LSTMEncoderConfig.batch_major := true;
  LSTMEncoderConfig.use_bias := true;
  LSTMEncoderConfig.num_layers := Some 0;
|}.

Definition lstm_encoder_0 : TfLSTMEncoder.t :=
  built {| TfLSTMEncoder.config := lstm_config_0; TfLSTMEncoder.lstms := [];
           TfLSTMEncoder.linear := Ok |}
    (TfLSTMEncoder.__init__ lstm_config_0).

(** A batch of 2 sequences of 5 steps with a state for two layers. *)
Definition lstm_inputs_2_layers : gmap string value :=
  lstm_inputs (iota [2; 5; 4]) (lstm_state (iota [2; 2; 3]) (iota [2; 2; 3])).

(** The inputs of the one-layer encoder, the state carrying a third
    entry of rank 3. *)
Definition lstm_inputs_third_entry : gmap string value :=
  lstm_inputs (iota [2; 5; 4])
    (<["m" := VTensor (iota [2; 1; 3])]> (lstm_state (iota [2; 1; 3]) (iota [2; 1; 3]))).

(** A state without "h". *)
Definition lstm_inputs_no_h : gmap string value :=
  lstm_inputs (iota [2; 5; 4]) (<["c" := VTensor (iota [2; 1; 3])]> ∅).

(** A tensor where the state mapping is expected. *)
Definition lstm_inputs_tensor_state : gmap string value :=
  <[STATE_IN := VTensor (iota [2; 1; 3])]>
    (<[SampleBatch.OBS := VTensor (iota [2; 5; 4])]> ∅).

End scenarios.

(** * Properties *)

(** ** The error monad *)

Lemma bind_Ok_inv {A B} (m : result A) (f : A → result B) b :
  m ≫= f = Ok b → ∃ a, m = Ok a ∧ f a = Ok b.
Proof. destruct m as [a|e]; simpl; [eauto | discriminate]. Qed.

Lemma fmap_Ok_inv {A B} (m : result A) (f : A → B) b :
  f <$> m = Ok b → ∃ a, m = Ok a ∧ b = f a.
Proof. destruct m as [a|e]; simpl; [|discriminate]. intros [= <-]. eauto. Qed.

(** Peel the first step off a computation known to succeed. *)
Ltac ok_step H :=
  lazymatch type of H with
  | mbind _ ?m = Ok _ =>
    let a := fresh "a" in let E := fresh "E" in
    apply bind_Ok_inv in H; destruct H as (a & E & H)
  | fmap _ ?m = Ok _ =>
    let a := fresh "a" in let E := fresh "E" in
    apply fmap_Ok_inv in H; destruct H as (a & E & H)
  end.

Tactic Notation "ok_bind" hyp(H) "as" simple_intropattern(p) ident(E) :=
  apply bind_Ok_inv in H; destruct H as (p & E & H); simpl in H.

Lemma dict_getitem_Ok `{Scalars} (d : gmap string value) k v :
  dict_getitem d k = Ok v ↔ d !! k = Some v.
Proof.
  unfold dict_getitem. destruct (d !! k); split; intros [=]; by subst.
Qed.

Lemma as_tensor_Ok `{Scalars} v x : as_tensor v = Ok x ↔ v = VTensor x.
Proof. destruct v; simpl; split; intros [=]; by subst. Qed.

(** ** Stateless variants *)

(** C6. The MLP encoder never carries recurrent state: whatever the
    inputs hold under the state-in key (nothing, zeros, anything), every
    result of [_forward], and so of [forward], has [None] under the
    state-out key; the state-in entry has no influence on the result at
    all, and a result is produced whenever the network accepts the
    observation. *)
Theorem mlp_state_out_always_none `{Scalars} (self : TfMLPEncoder.t)
    (inputs : gmap string value) :
  (∀ outputs, TfMLPEncoder._forward self inputs = Ok outputs →
     outputs !! STATE_OUT = Some VNone) ∧
  (∀ outputs, base.forward self inputs = Ok outputs →
     outputs !! STATE_OUT = Some VNone) ∧
  (∀ s, TfMLPEncoder._forward self (<[STATE_IN := s]> inputs)
        = TfMLPEncoder._forward self inputs) ∧
  TfMLPEncoder._forward self (delete STATE_IN inputs)
    = TfMLPEncoder._forward self inputs ∧
  (∀ x y, inputs !! SampleBatch.OBS = Some (VTensor x) →
     TfMLPEncoder.net self x = Ok y →
     ∃ outputs, TfMLPEncoder._forward self inputs = Ok outputs ∧
       outputs !! ENCODER_OUT = Some (VTensor y) ∧
       outputs !! STATE_OUT = Some VNone).
Proof.
  assert (Hfw : ∀ outputs, TfMLPEncoder._forward self inputs = Ok outputs →
            outputs !! STATE_OUT = Some VNone).
  { intros outputs Hf. unfold TfMLPEncoder._forward in Hf.
    do 3 ok_step Hf. injection Hf as <-. by rewrite lookup_insert_eq. }
  split_and!.
  - exact Hfw.
  - intros outputs Hf. unfold base.forward in Hf. ok_step Hf.
    destruct (validate _ inputs); [discriminate|].
    ok_step Hf. ok_step Hf.
    destruct (validate _ a0); [discriminate|].
    injection Hf as <-. by apply Hfw.
  - intros s. unfold TfMLPEncoder._forward, dict_getitem.
    by rewrite lookup_insert_ne.
  - unfold TfMLPEncoder._forward, dict_getitem.
    by rewrite lookup_delete_ne.
  - intros x y Hobs Hnet. unfold TfMLPEncoder._forward, dict_getitem.
    rewrite Hobs. simpl. rewrite Hnet. simpl. eexists. split; [done|].
    split; [by rewrite lookup_insert_ne, lookup_insert_eq | by rewrite lookup_insert_eq].
Qed.

(** C7. The CNN encoder passes state straight through: for inputs that
    hold [s] under the state-in key, every result of [_forward], and so
    of [forward], holds that same [s] under the state-out key, and a
    result is produced whenever the network accepts the observation. *)
Theorem cnn_state_passes_through `{Scalars} (self : TfCNNEncoder.t)
    (inputs : gmap string value) (s : value) :
  inputs !! STATE_IN = Some s →
  (∀ outputs, TfCNNEncoder._forward self inputs = Ok outputs →
     outputs !! STATE_OUT = Some s) ∧
  (∀ outputs, base.forward self inputs = Ok outputs →
     outputs !! STATE_OUT = Some s) ∧
  (∀ x y, inputs !! SampleBatch.OBS = Some (VTensor x) →
     TfCNNEncoder.net self x = Ok y →
     ∃ outputs, TfCNNEncoder._forward self inputs = Ok outputs ∧
       outputs !! ENCODER_OUT = Some (VTensor y) ∧
       outputs !! STATE_OUT = Some s).
Proof.
  intros Hs.
  assert (Hfw : ∀ outputs, TfCNNEncoder._forward self inputs = Ok outputs →
            outputs !! STATE_OUT = Some s).
  { intros outputs Hf. unfold TfCNNEncoder._forward in Hf.
    do 4 ok_step Hf. injection Hf as <-.
    apply dict_getitem_Ok in E2. rewrite lookup_insert_eq. congruence. }
  split_and!.
  - exact Hfw.
  - intros outputs Hf. unfold base.forward in Hf. ok_step Hf.
    destruct (validate _ inputs); [discriminate|].
    ok_step Hf. ok_step Hf.
    destruct (validate _ a0); [discriminate|].
    injection Hf as <-. by apply Hfw.
  - intros x y Hobs Hnet. unfold TfCNNEncoder._forward, dict_getitem.
    rewrite Hobs, Hs. simpl. rewrite Hnet. simpl. eexists. split; [done|].
    split; [by rewrite lookup_insert_ne, lookup_insert_eq | by rewrite lookup_insert_eq].
Qed.

(** ** Output specs *)

(** C8. For a configuration whose [output_dims] starts with [d], the
    output specs of the CNN, MLP and recurrent encoders declare the
    encoder-output entry as (b, d), respectively (b, t, d), with the last
    dimension bound to [d] and the batch (and time) dimensions unbound.
    The specs are computed from the configuration alone. *)
Theorem output_specs_feature_dim `{Scalars} (d : nat) :
  (∀ (self : TfCNNEncoder.t) rest,
     CNNEncoderConfig.output_dims (TfCNNEncoder.config self) = d :: rest →
     ∃ ts st, TfCNNEncoder.get_output_specs self
              = Ok (SpecDict [(ENCODER_OUT, SpecTensor ts); (STATE_OUT, st)]) ∧
       full_shape ts = [("b", None); ("d", Some d)]) ∧
  (∀ (self : TfMLPEncoder.t) rest,
     MLPEncoderConfig.output_dims (TfMLPEncoder.config self) = d :: rest →
     ∃ ts st, TfMLPEncoder.get_output_specs self
              = Ok (SpecDict [(ENCODER_OUT, SpecTensor ts); (STATE_OUT, st)]) ∧
       full_shape ts = [("b", None); ("d", Some d)]) ∧
  (∀ (self : TfLSTMEncoder.t) rest,
     LSTMEncoderConfig.output_dims (TfLSTMEncoder.config self) = d :: rest →
     ∃ ts st, TfLSTMEncoder.get_output_specs self
              = Ok (SpecDict [(ENCODER_OUT, SpecTensor ts); (STATE_OUT, st)]) ∧
       full_shape ts = [("b", None); ("t", None); ("d", Some d)]).
Proof.
  split_and!; intros self rest Hd.
  - unfold TfCNNEncoder.get_output_specs. rewrite Hd. simpl.
    eexists _, _. split; reflexivity.
  - unfold TfMLPEncoder.get_output_specs. rewrite Hd. simpl.
    eexists _, _. split; reflexivity.
  - unfold TfLSTMEncoder.get_output_specs. rewrite Hd. simpl.
    eexists _, _. split; reflexivity.
Qed.

(** ** Construction *)

Lemma new_layer_calls {L} (mk : nat → L) s : calls (new_layer mk s).1 = calls s.
Proof. reflexivity. Qed.

Lemma append_layers_calls {L} n (mk : nat → L) layers s :
  calls (append_layers n mk layers s).1 = calls s.
Proof.
  revert layers s. induction n as [|n IH]; intros layers s; simpl; [done|].
  unfold init_bind. simpl. by rewrite IH.
Qed.

Lemma append_layers_Ok {L} n (mk : nat → L) layers s :
  ∃ s', append_layers n mk layers s
        = (s', Ok (layers ++ (mk <$> seq (layers_created s) n))).
Proof.
  revert layers s. induction n as [|n IH]; intros layers s; simpl.
  - rewrite app_nil_r. by eexists.
  - unfold init_bind. simpl.
    destruct (IH (layers ++ [mk (layers_created s)])
                {| calls := calls s; layers_created := S (layers_created s) |})
      as [s' ->].
    simpl. rewrite <- app_assoc. by eexists.
Qed.

(** C10. The constructor of the recurrent encoder calls the
    framework-model initialiser and no other base initialiser, so never
    the one of the Encoder contract; the constructors of the CNN encoder
    and of the MLP encoder call the framework-model initialiser and then
    the Encoder initialiser, and the constructor of the actor-critic
    composite calls the framework-model initialiser and then the one of
    its contract base. This holds whether or not construction goes on to
    fail. *)
Theorem constructors_initialiser_calls `{Scalars} `{!Keras} (s : InitState) :
  (∀ config, calls (TfLSTMEncoder.__init__ config s).1 = calls s ++ [TfModel_init]) ∧
  (∀ config, Encoder_init ∉ calls (TfLSTMEncoder.__init__ config init_state0).1) ∧
  (∀ config, calls (TfCNNEncoder.__init__ config s).1
             = calls s ++ [TfModel_init; Encoder_init]) ∧
  (∀ config, calls (TfMLPEncoder.__init__ config s).1
             = calls s ++ [TfModel_init; Encoder_init]) ∧
  (∀ Config EA EC (build : Config → result (TfActorCriticEncoder.t EA EC)) config,
     calls (TfActorCriticEncoder.__init__ build config s).1
     = calls s ++ [TfModel_init; ActorCriticEncoder_init]).
Proof.
  assert (Hlstm : ∀ config s, calls (TfLSTMEncoder.__init__ config s).1
                   = calls s ++ [TfModel_init]).
  { intros config s0. unfold TfLSTMEncoder.__init__, init_bind. simpl.
    match goal with |- context [append_layers ?n ?mk ?l ?s1] =>
      destruct (append_layers_Ok n mk l s1) as [s' Hs'];
      pose proof (append_layers_calls n mk l s1) as Hc;
      rewrite Hs' in Hc |- * end.
    simpl in Hc. unfold lift.
    destruct (getitem_list _ 0); simpl; by rewrite Hc. }
  split_and!.
  - intros config. apply Hlstm.
  - intros config. rewrite Hlstm. simpl.
    intros Hin%list_elem_of_singleton. discriminate.
  - intros config. unfold TfCNNEncoder.__init__, init_bind, lift. simpl.
    destruct (getitem_list _ 0); simpl; by rewrite <- app_assoc.
  - intros config. unfold TfMLPEncoder.__init__, init_bind, lift. simpl.
    destruct (getitem_list (MLPEncoderConfig.input_dims config) 0); simpl;
      [|by rewrite <- app_assoc].
    destruct (getitem_list _ 0); simpl; by rewrite <- app_assoc.
  - intros Config EA EC build config.
    unfold TfActorCriticEncoder.__init__, init_bind, lift. simpl.
    by rewrite <- app_assoc.
Qed.

(** ** Tensor operations *)

Section TensorFacts.
Context `{Scalars}.

Lemma is_perm_102 : tf.is_perm [1; 0; 2] 3.
Proof.
  split; [done|]. simpl. repeat constructor.
Qed.

(** Swapping the first two axes of a rank-3 tensor. *)
Lemma transpose_102 (x : Tensor) a b c :
  shape x = [a; b; c] →
  ∃ y, tf.transpose x [1; 0; 2] = Ok y ∧
    shape y = [b; a; c] ∧ dtype y = dtype x ∧
    ∀ i j k, val y [i; j; k] = val x [j; i; k].
Proof.
  intros Hsh. unfold tf.transpose, rank. rewrite Hsh. simpl.
  destruct (decide (tf.is_perm [1; 0; 2] 3)) as [_|[]]; [|apply is_perm_102].
  eexists. split; [reflexivity|]. done.
Qed.

Lemma transpose_102_inv (x y : Tensor) :
  tf.transpose x [1; 0; 2] = Ok y →
  ∃ a b c, shape x = [a; b; c] ∧ shape y = [b; a; c] ∧ dtype y = dtype x ∧
    ∀ i j k, val y [i; j; k] = val x [j; i; k].
Proof.
  intros Ht.
  assert (Hr : rank x = 3).
  { unfold tf.transpose in Ht. destruct (decide _) as [[Hl _]|]; [|discriminate].
    by rewrite <- Hl. }
  unfold rank in Hr.
  destruct (shape x) as [|a [|b [|c [|]]]] eqn:Hsh; try discriminate.
  destruct (transpose_102 x a b c Hsh) as (y' & Hy' & ?). exists a, b, c.
  rewrite Hy' in Ht. injection Ht as <-. done.
Qed.

Lemma getitem_inv (x y : Tensor) i :
  tf.getitem x i = Ok y →
  ∃ n, shape x = n :: shape y ∧ i < n ∧ dtype y = dtype x ∧
    ∀ idx, val y idx = val x (i :: idx).
Proof.
  unfold tf.getitem. destruct (shape x) as [|n sh]; [discriminate|].
  destruct (decide (i < n)); [|discriminate]. intros [= <-]. simpl. eauto.
Qed.

Lemma getitem_Ok (x : Tensor) n sh i :
  shape x = n :: sh → i < n →
  ∃ y, tf.getitem x i = Ok y ∧ shape y = sh ∧ dtype y = dtype x ∧
    ∀ idx, val y idx = val x (i :: idx).
Proof.
  intros Hsh Hi. unfold tf.getitem. rewrite Hsh.
  destruct (decide (i < n)); [|done]. eexists. split; [done|]. eauto.
Qed.

(** Stacking along axis 1 puts the [l]-th tensor at position [l] of the
    new axis, behind the first axis of the stacked tensors. *)
Lemma stack_1_inv (values : list Tensor) (y : Tensor) :
  tf.stack values 1 = Ok y →
  ∃ v0, head values = Some v0 ∧
    Forall (λ v, shape v = shape v0 ∧ dtype v = dtype v0) values ∧
    shape y = take 1 (shape v0) ++ length values :: drop 1 (shape v0) ∧
    dtype y = dtype v0 ∧
    ∀ b l k, val y [b; l; k] = val (nth l values v0) [b; k].
Proof.
  unfold tf.stack. destruct values as [|v0 vs]; [discriminate|].
  destruct (decide (rank v0 < 1)); [discriminate|].
  destruct (decide (Forall _ _)) as [Hall|]; [|discriminate].
  intros [= <-]. exists v0. simpl. eauto.
Qed.

Lemma stack_1_Ok (values : list Tensor) v0 b h :
  head values = Some v0 → shape v0 = [b; h] →
  Forall (λ v, shape v = shape v0 ∧ dtype v = dtype v0) values →
  ∃ y, tf.stack values 1 = Ok y ∧ shape y = [b; length values; h] ∧
    dtype y = dtype v0.
Proof.
  intros Hhd Hsh Hall. destruct values as [|v vs]; [discriminate|].
  injection Hhd as ->. unfold tf.stack, rank. rewrite Hsh. simpl.
  destruct (decide (2 < 1)); [lia|].
  destruct (decide (Forall _ _)) as [_|[]]; [|by rewrite Hsh in Hall].
  eexists. split; [done|]. done.
Qed.

End TensorFacts.

(** ** Mapping over nested structures *)

Section TreeFacts.
Context `{Scalars}.

(** The sequence of a mapping succeeds exactly when every entry does. *)
Lemma sequence_Ok (m : gmap string (result value)) (m' : gmap string value) :
  tree.sequence m = Ok m' ↔ m = Ok <$> m'.
Proof.
  revert m'. unfold tree.sequence.
  apply (map_fold_weak_ind (λ r m, ∀ m', r = Ok m' ↔ m = Ok <$> m')); clear m.
  - intros m'. split.
    + intros [= <-]. by rewrite fmap_empty.
    + intros Hm. symmetry in Hm. apply fmap_empty_inv in Hm. by subst.
  - intros i x m r Hi IH m'. split.
    + intros Hc. unfold tree.collect in Hc. do 2 ok_step Hc.
      injection Hc as <-. apply IH in E. subst. by rewrite fmap_insert.
    + intros Hm.
      assert (Hx : (Ok <$> m') !! i = Some x) by (by rewrite <- Hm, lookup_insert_eq).
      rewrite lookup_fmap in Hx. destruct (m' !! i) as [v|] eqn:Hv; [|discriminate].
      injection Hx as <-.
      assert (Hr : r = Ok (delete i m')).
      { apply IH. rewrite fmap_delete, <- Hm, delete_insert_eq. by rewrite delete_id. }
      rewrite Hr. unfold tree.collect. simpl. f_equal.
      by apply insert_delete_id.
Qed.

Lemma map_structure_dict_inv func (d : gmap string value) v :
  tree.map_structure func (VDict d) = Ok v →
  ∃ d', v = VDict d' ∧ tree.map_structure func <$> d = Ok <$> d'.
Proof.
  simpl. intros Hm. ok_step Hm. subst. apply sequence_Ok in E. eauto.
Qed.

Lemma map_structure_dict_Ok func (d d' : gmap string value) :
  tree.map_structure func <$> d = Ok <$> d' →
  tree.map_structure func (VDict d) = Ok (VDict d').
Proof. intros Hm. simpl. apply sequence_Ok in Hm. by rewrite Hm. Qed.

End TreeFacts.

(** ** The recurrent encoder *)

Section LSTMFacts.
Context `{Scalars}.

Lemma state_slice_dict (d : gmap string value) name x i :
  d !! name = Some (VTensor x) →
  TfLSTMEncoder.state_slice (VDict d) name i = tf.getitem x i.
Proof.
  intros Hd. unfold TfLSTMEncoder.state_slice. simpl.
  unfold dict_getitem. by rewrite Hd.
Qed.

(** The loop of [_forward], with its two accumulators, computes what the
    recursion over the cells computes. *)
Lemma loop_run_cells states_in h_lf c_lf :
  (∀ j, TfLSTMEncoder.state_slice states_in "h" j = tf.getitem h_lf j) →
  (∀ j, TfLSTMEncoder.state_slice states_in "c" j = tf.getitem c_lf j) →
  ∀ cells i x hs cs,
    foldM (TfLSTMEncoder.lstm_step states_in) (zip (seq i (length cells)) cells) (x, hs, cs)
    = TfLSTMEncoder.run_cells h_lf c_lf i cells x ≫= λ '(last, states),
        Ok (last, hs ++ states.*1, cs ++ states.*2).
Proof.
  intros Hh Hc cells. induction cells as [|cell cells IH]; intros i x hs cs; simpl.
  - by rewrite !app_nil_r.
  - rewrite Hh, Hc.
    destruct (tf.getitem h_lf i) as [h_i|]; simpl; [|done].
    destruct (tf.getitem c_lf i) as [c_i|]; simpl; [|done].
    destruct (cell x (h_i, c_i)) as [[[o h'] c']|]; simpl; [|done].
    rewrite IH.
    destruct (TfLSTMEncoder.run_cells h_lf c_lf (S i) cells o) as [[last states]|];
      simpl; [|done].
    by rewrite <- !app_assoc.
Qed.

(** What the cell at position [l] received and returned. *)
Lemma run_cells_lookup h_lf c_lf cells : ∀ i x last states,
  TfLSTMEncoder.run_cells h_lf c_lf i cells x = Ok (last, states) →
  length states = length cells ∧
  ∀ l cell, cells !! l = Some cell →
    ∃ x_l h_l c_l o h' c',
      tf.getitem h_lf (i + l) = Ok h_l ∧
      tf.getitem c_lf (i + l) = Ok c_l ∧
      cell x_l (h_l, c_l) = Ok (o, h', c') ∧
      states !! l = Some (h', c').
Proof.
  induction cells as [|cell0 cells IH]; intros i x last states Hrun; simpl in Hrun.
  - injection Hrun as <- <-. split; [done|]. intros l cell [=].
  - ok_bind Hrun as h_i Eh. ok_bind Hrun as c_i Ec.
    ok_bind Hrun as [[o h'] c'] Ecell. ok_bind Hrun as [last' states'] Erest.
    injection Hrun as <- <-.
    destruct (IH _ _ _ _ Erest) as [Hlen Hnth]. split; [simpl; by rewrite Hlen|].
    intros [|l] cell Hl; simpl in Hl.
    + injection Hl as <-. rewrite Nat.add_0_r. by exists x, h_i, c_i, o, h', c'.
    + destruct (Hnth l cell Hl) as (x_l & h_l & c_l & o_l & h_l' & c_l' & ? & ? & ? & ?).
      replace (i + S l) with (S i + l) by lia.
      by exists x_l, h_l, c_l, o_l, h_l', c_l'.
Qed.

(** Every successful run of [_forward] on inputs whose state-in mapping
    holds tensors under "h" and "c" decomposes into the steps below. *)
Lemma lstm_forward_inv (self : TfLSTMEncoder.t) inputs outputs d h_in c_in :
  TfLSTMEncoder._forward self inputs = Ok outputs →
  inputs !! STATE_IN = Some (VDict d) →
  d !! "h" = Some (VTensor h_in) →
  d !! "c" = Some (VTensor c_in) →
  ∃ obs h_lf c_lf last states y h_out c_out,
    inputs !! SampleBatch.OBS = Some (VTensor obs) ∧
    tf.transpose h_in [1; 0; 2] = Ok h_lf ∧
    tf.transpose c_in [1; 0; 2] = Ok c_lf ∧
    TfLSTMEncoder.run_cells h_lf c_lf 0 (TfLSTMEncoder.lstms self)
      (tf.cast obs float32) = Ok (last, states) ∧
    TfLSTMEncoder.linear self last = Ok y ∧
    tf.stack (states.*1) 1 = Ok h_out ∧
    tf.stack (states.*2) 1 = Ok c_out ∧
    outputs = <[STATE_OUT := VDict (<["c" := VTensor c_out]> (<["h" := VTensor h_out]> ∅))]>
                (<[ENCODER_OUT := VTensor y]> ∅).
Proof.
  intros Hf Hst Hh Hc. unfold TfLSTMEncoder._forward in Hf.
  do 4 ok_step Hf.
  apply dict_getitem_Ok in E, E1. apply as_tensor_Ok in E0. subst a.
  rewrite Hst in E1. injection E1 as <-.
  apply map_structure_dict_inv in E2 as (d' & -> & Hd').
  assert (Hlf : ∀ name x, d !! name = Some (VTensor x) →
            ∃ x_lf, tf.transpose x [1; 0; 2] = Ok x_lf ∧ d' !! name = Some (VTensor x_lf)).
  { intros name x Hx. pose proof (f_equal (.!! name) Hd') as Hn.
    rewrite !lookup_fmap, Hx in Hn. simpl in Hn.
    destruct (d' !! name) as [v|]; [|discriminate]. injection Hn as Hn.
    unfold TfLSTMEncoder.layers_first in Hn. simpl in Hn.
    ok_step Hn. subst v. eauto. }
  destruct (Hlf _ _ Hh) as (h_lf & Hth & Hh').
  destruct (Hlf _ _ Hc) as (c_lf & Htc & Hc').
  unfold enumerate in Hf.
  rewrite (loop_run_cells (VDict d') h_lf c_lf) in Hf
    by (intros j; by apply state_slice_dict).
  ok_bind Hf as [[out hs] cs] Eloop. ok_bind Eloop as [last states] Erun.
  injection Eloop as <- <- <-.
  ok_bind Hf as y Ey. ok_bind Hf as h_out Eh. ok_bind Hf as c_out Ec.
  injection Hf as <-.
  by exists a0, h_lf, c_lf, last, states, y, h_out, c_out.
Qed.

End LSTMFacts.

(** C1. The state layout conversion of the recurrent encoder's
    [_forward] is symmetric. For batch-first state-in tensors [h_in] and
    [c_in], whenever [_forward] returns: the cell of layer [l] was called
    on slices whose element at [b, k] is the element of [h_in], [c_in]
    at [b, l, k]; and the element at [b, l, k] of the returned state-out
    tensors is the element at [b, k] of what that cell returned. The
    returned tensors are batch-first: the layer axis sits behind the
    first axis of the cells' outputs. No index is permuted on the way. *)
Theorem lstm_state_layout_round_trip `{Scalars} (self : TfLSTMEncoder.t)
    (inputs outputs d : gmap string value) (h_in c_in : Tensor) :
  inputs !! STATE_IN = Some (VDict d) →
  d !! "h" = Some (VTensor h_in) →
  d !! "c" = Some (VTensor c_in) →
  TfLSTMEncoder._forward self inputs = Ok outputs →
  ∃ h_out c_out,
    outputs !! STATE_OUT
      = Some (VDict (<["c" := VTensor c_out]> (<["h" := VTensor h_out]> ∅))) ∧
    ∀ l cell, TfLSTMEncoder.lstms self !! l = Some cell →
      ∃ x_l h_l c_l o h' c',
        cell x_l (h_l, c_l) = Ok (o, h', c') ∧
        (∀ b k, val h_l [b; k] = val h_in [b; l; k]) ∧
        (∀ b k, val c_l [b; k] = val c_in [b; l; k]) ∧
        (∀ b k, val h_out [b; l; k] = val h' [b; k]) ∧
        (∀ b k, val c_out [b; l; k] = val c' [b; k]) ∧
        shape h_out = take 1 (shape h') ++
                      length (TfLSTMEncoder.lstms self) :: drop 1 (shape h') ∧
        shape c_out = take 1 (shape c') ++
                      length (TfLSTMEncoder.lstms self) :: drop 1 (shape c').
Proof.
  intros Hst Hh Hc Hf.
  destruct (lstm_forward_inv _ _ _ _ _ _ Hf Hst Hh Hc)
    as (obs & h_lf & c_lf & last & states & y & h_out & c_out
        & Hobs & Hth & Htc & Hrun & Hlin & Hsh & Hsc & ->).
  exists h_out, c_out. split; [by rewrite lookup_insert_eq|].
  apply transpose_102_inv in Hth as (? & ? & ? & _ & _ & _ & Hvh).
  apply transpose_102_inv in Htc as (? & ? & ? & _ & _ & _ & Hvc).
  apply run_cells_lookup in Hrun as [Hlen Hcells].
  apply stack_1_inv in Hsh as (h0 & _ & Hallh & Hshape_h & _ & Hval_h).
  apply stack_1_inv in Hsc as (c0 & _ & Hallc & Hshape_c & _ & Hval_c).
  intros l cell Hl.
  destruct (Hcells l cell Hl) as (x_l & h_l & c_l & o & h' & c' & Hgh & Hgc & Hcell & Hs).
  simpl in Hgh, Hgc.
  apply getitem_inv in Hgh as (? & _ & _ & _ & Hvh_l).
  apply getitem_inv in Hgc as (? & _ & _ & _ & Hvc_l).
  assert (Hnh : nth l (states.*1) h0 = h').
  { by rewrite nth_lookup, list_lookup_fmap, Hs. }
  assert (Hnc : nth l (states.*2) c0 = c').
  { by rewrite nth_lookup, list_lookup_fmap, Hs. }
  assert (Hinh : h' ∈ states.*1).
  { apply list_elem_of_lookup. exists l. by rewrite list_lookup_fmap, Hs. }
  assert (Hinc : c' ∈ states.*2).
  { apply list_elem_of_lookup. exists l. by rewrite list_lookup_fmap, Hs. }
  rewrite Forall_forall in Hallh, Hallc.
  destruct (Hallh _ Hinh) as [Hsh' _]. destruct (Hallc _ Hinc) as [Hsc' _].
  rewrite !length_fmap, Hlen in *.
  exists x_l, h_l, c_l, o, h', c'. split_and!; [done|..].
  - intros b k. by rewrite Hvh_l, Hvh.
  - intros b k. by rewrite Hvc_l, Hvc.
  - intros b k. by rewrite Hval_h, Hnh.
  - intros b k. by rewrite Hval_c, Hnc.
  - by rewrite Hsh'.
  - by rewrite Hsc'.
Qed.

(** The steps of the specified algorithm, when they succeed, are a
    successful run of [_forward]. *)
Lemma lstm_forward_Ok `{Scalars} (self : TfLSTMEncoder.t) inputs obs h_in c_in
    h_lf c_lf last states y h_out c_out :
  inputs !! SampleBatch.OBS = Some (VTensor obs) →
  inputs !! STATE_IN = Some (VDict (<["c" := VTensor c_in]> (<["h" := VTensor h_in]> ∅))) →
  tf.transpose h_in [1; 0; 2] = Ok h_lf →
  tf.transpose c_in [1; 0; 2] = Ok c_lf →
  TfLSTMEncoder.run_cells h_lf c_lf 0 (TfLSTMEncoder.lstms self)
    (tf.cast obs float32) = Ok (last, states) →
  TfLSTMEncoder.linear self last = Ok y →
  tf.stack (states.*1) 1 = Ok h_out →
  tf.stack (states.*2) 1 = Ok c_out →
  TfLSTMEncoder._forward self inputs
  = Ok (<[STATE_OUT := VDict (<["c" := VTensor c_out]> (<["h" := VTensor h_out]> ∅))]>
       (<[ENCODER_OUT := VTensor y]> ∅)).
Proof.
  intros Hobs Hst Hth Htc Hrun Hlin Hsh Hsc.
  assert (Hms : tree.map_structure TfLSTMEncoder.layers_first
            (VDict (<["c" := VTensor c_in]> (<["h" := VTensor h_in]> ∅)))
          = Ok (VDict (<["c" := VTensor c_lf]> (<["h" := VTensor h_lf]> ∅)))).
  { apply map_structure_dict_Ok. rewrite !fmap_insert, !fmap_empty. simpl.
    unfold TfLSTMEncoder.layers_first. simpl. by rewrite Hth, Htc. }
  unfold TfLSTMEncoder._forward, dict_getitem. rewrite Hobs, Hst.
  cbn [mbind result_bind as_tensor]. rewrite Hms. cbn [mbind result_bind].
  unfold enumerate.
  rewrite (loop_run_cells _ h_lf c_lf); [| intros j; by apply state_slice_dict..].
  rewrite Hrun. simpl. rewrite Hlin. simpl. rewrite Hsh. simpl. by rewrite Hsc.
Qed.

(** C4. On inputs that hold an observation tensor and a state-in mapping
    of two tensors "h" and "c", [_forward] returns exactly what the
    specified algorithm returns (cast to float32, transpose to
    layers-first, run the cells in order from layer 0 on their own
    slices and on the previous cell's output sequence, stack along
    axis 1, project the last output sequence), and it fails exactly when
    that algorithm fails. *)
Theorem lstm_forward_follows_algorithm `{Scalars} (self : TfLSTMEncoder.t)
    (inputs : gmap string value) (obs h_in c_in : Tensor) :
  inputs !! SampleBatch.OBS = Some (VTensor obs) →
  inputs !! STATE_IN
    = Some (VDict (<["c" := VTensor c_in]> (<["h" := VTensor h_in]> ∅))) →
  ∀ outputs,
    TfLSTMEncoder._forward self inputs = Ok outputs ↔
    TfLSTMEncoder.specified_forward self obs h_in c_in = Ok outputs.
Proof.
  intros Hobs Hst outputs. split.
  - intros Hf.
    destruct (lstm_forward_inv _ _ _ _ h_in c_in Hf Hst)
      as (obs' & h_lf & c_lf & last & states & y & h_out & c_out
          & Hobs' & Hth & Htc & Hrun & Hlin & Hsh & Hsc & ->);
      [by rewrite lookup_insert_ne, lookup_insert_eq | by rewrite lookup_insert_eq |].
    rewrite Hobs in Hobs'. injection Hobs' as <-.
    unfold TfLSTMEncoder.specified_forward.
    rewrite Hth, Htc. simpl. rewrite Hrun. simpl.
    rewrite Hsh, Hsc. simpl. rewrite Hlin. reflexivity.
  - intros Hs. unfold TfLSTMEncoder.specified_forward in Hs.
    ok_bind Hs as h_lf Hth. ok_bind Hs as c_lf Htc.
    ok_bind Hs as [last states] Hrun.
    ok_bind Hs as h_out Hsh. ok_bind Hs as c_out Hsc. ok_bind Hs as y Hlin.
    injection Hs as <-.
    rewrite (lstm_forward_Ok self inputs obs h_in c_in h_lf c_lf last states y h_out c_out)
      by done.
    reflexivity.
Qed.

(** ** Validation *)

Section ValidateFacts.
Context `{Scalars}.

Lemma Spec_nested_ind (P : Spec → Prop) :
  P SpecNone →
  (∀ ts, P (SpecTensor ts)) →
  (∀ es, Forall (λ kv, P kv.2) es → P (SpecDict es)) →
  ∀ s, P s.
Proof.
  intros HN HT HD. fix IH 1. intros [|ts|es]; [exact HN | apply HT |].
  apply HD. induction es as [|[k s] es IHes]; constructor; [apply IH | exact IHes].
Qed.

Lemma validate_at_dict_nil path (d : gmap string value) :
  validate_at path (SpecDict []) (VDict d) = None.
Proof. reflexivity. Qed.

Lemma validate_at_dict_cons path k s es (d : gmap string value) :
  validate_at path (SpecDict ((k, s) :: es)) (VDict d)
  = match d !! k with
    | None => Some (MissingKey (path ++ [k]))
    | Some v' =>
      match validate_at (path ++ [k]) s v' with
      | Some viol => Some viol
      | None => validate_at path (SpecDict es) (VDict d)
      end
    end.
Proof. reflexivity. Qed.

Lemma check_dims_sound path dims sh viol :
  check_dims path dims sh = Some viol →
  ∃ i name n a, dims !! i = Some (name, Some n) ∧ sh !! i = Some a ∧
    a ≠ n ∧ viol = DimMismatch path name n a.
Proof.
  revert sh. induction dims as [|[name [n|]] dims IH]; intros [|a sh] Hc;
    simpl in Hc; try discriminate.
  - destruct (decide (a = n)) as [->|Hne].
    + destruct (IH _ Hc) as (i & name' & n' & a' & ? & ? & ? & ?).
      by exists (S i), name', n', a'.
    + injection Hc as <-. by exists 0, name, n, a.
  - destruct (IH _ Hc) as (i & name' & n' & a' & ? & ? & ? & ?).
    by exists (S i), name', n', a'.
Qed.

Lemma check_dims_complete path dims sh i name n a :
  dims !! i = Some (name, Some n) → sh !! i = Some a → a ≠ n →
  ∃ viol, check_dims path dims sh = Some viol.
Proof.
  revert sh i. induction dims as [|[name' o] dims IH]; intros sh i Hd Hs Hne.
  - by destruct i.
  - destruct sh as [|a' sh]; [by destruct i|].
    destruct i as [|i]; simpl in Hd, Hs.
    + injection Hd as -> ->. injection Hs as ->. simpl.
      destruct (decide (a = n)); [done | eauto].
    + simpl. destruct o as [n'|]; [destruct (decide (a' = n')); [|eauto]|];
        by eapply IH.
Qed.

(** A reported violation is a violation. *)
Lemma validate_sound s : ∀ path v viol,
  validate_at path s v = Some viol → violates path s v viol.
Proof.
  induction s as [|ts|es IH] using Spec_nested_ind; intros path v viol Hv.
  - discriminate.
  - destruct v as [|t|d]; simpl in Hv.
    + injection Hv as <-. by constructor.
    + unfold check_tensor in Hv. destruct (decide _) as [Hr|Hr].
      * apply check_dims_sound in Hv as (i & name & n & a & Hd & Hs & Hne & ->).
        unfold full_shape in Hd. rewrite list_lookup_fmap in Hd.
        destruct (expected_shape ts !! i) as [name'|] eqn:Hname; [|discriminate].
        injection Hd as -> Hb. by eapply violates_dim.
      * injection Hv as <-. by constructor.
    + injection Hv as <-. by constructor.
  - destruct v as [|t|d]; try (simpl in Hv; injection Hv as <-; by constructor).
    assert (Haux : ∀ es', (∀ k s, (k, s) ∈ es' → (k, s) ∈ es) →
              validate_at path (SpecDict es') (VDict d) = Some viol →
              violates path (SpecDict es) (VDict d) viol); [|by apply (Haux es)].
    clear Hv. intros es'. induction es' as [|[k s] es' IHes]; intros Hsub Hv.
    + discriminate.
    + rewrite validate_at_dict_cons in Hv.
      assert (Hin : (k, s) ∈ es) by (apply Hsub; left).
      destruct (d !! k) as [v'|] eqn:Hk.
      * destruct (validate_at (path ++ [k]) s v') as [viol'|] eqn:Hv'.
        -- injection Hv as <-. eapply violates_nested; [done..|].
           rewrite Forall_forall in IH. by apply (IH _ Hin).
        -- apply IHes; [|done]. intros k0 s0 Hin0. apply Hsub. by right.
      * injection Hv as <-. by eapply violates_missing.
Qed.

(** Data with a violation is rejected. *)
Lemma validate_complete path s v viol :
  violates path s v viol → ∃ viol', validate_at path s v = Some viol'.
Proof.
  induction 1 as [path ts v Hv | path ts t Hr | path ts t i name n a Hr Hn Hb Hs Hne
                  | path es v Hv | path es d k s Hin Hk
                  | path es d k s v viol Hin Hk Hviol IH].
  - destruct v; simpl; eauto. by destruct (Hv t).
  - simpl. unfold check_tensor. destruct (decide _); [done | eauto].
  - simpl. unfold check_tensor. destruct (decide _); [|eauto].
    eapply check_dims_complete; [|done..].
    unfold full_shape. by rewrite list_lookup_fmap, Hn, <- Hb.
  - destruct v; simpl; eauto. by destruct (Hv d).
  - induction es as [|[k' s'] es IHes]; [by apply elem_of_nil in Hin|].
    rewrite validate_at_dict_cons. apply elem_of_cons in Hin as [[= <- <-]|Hin].
    + rewrite Hk. eauto.
    + destruct (d !! k'); [|eauto]. destruct (validate_at _ s' _); eauto.
  - destruct IH as [viol' Hviol'].
    induction es as [|[k' s'] es IHes]; [by apply elem_of_nil in Hin|].
    rewrite validate_at_dict_cons. apply elem_of_cons in Hin as [[= <- <-]|Hin].
    + rewrite Hk, Hviol'. eauto.
    + destruct (d !! k'); [|eauto]. destruct (validate_at _ s' _); eauto.
Qed.

End ValidateFacts.

(** ** The forward contract *)

Section ForwardFacts.
Context `{Scalars} `{!base.Encoder E}.

Lemma forward_inv (self : E) inputs outputs :
  base.forward self inputs = Ok outputs →
  ∃ ispec ospec,
    base.get_input_specs self = Ok ispec ∧ validate ispec inputs = None ∧
    base._forward self inputs = Ok outputs ∧
    base.get_output_specs self = Ok ospec ∧ validate ospec outputs = None.
Proof.
  unfold base.forward. intros Hf. ok_bind Hf as ispec Hi.
  destruct (validate ispec inputs) eqn:Hvi; [discriminate|].
  ok_bind Hf as outputs' Hfw. ok_bind Hf as ospec Ho.
  destruct (validate ospec outputs') eqn:Hvo; [discriminate|].
  injection Hf as <-. by exists ispec, ospec.
Qed.

Lemma forward_Ok (self : E) inputs outputs ispec ospec :
  base.get_input_specs self = Ok ispec → validate ispec inputs = None →
  base._forward self inputs = Ok outputs →
  base.get_output_specs self = Ok ospec → validate ospec outputs = None →
  base.forward self inputs = Ok outputs.
Proof.
  intros Hi Hvi Hf Ho Hvo. unfold base.forward.
  rewrite Hi. simpl. rewrite Hvi, Hf. simpl. rewrite Ho. simpl. by rewrite Hvo.
Qed.

Lemma forward_input_violation (self : E) inputs ispec v :
  base.get_input_specs self = Ok ispec → validate ispec inputs = Some v →
  base.forward self inputs = Raise (InputSpecViolation v).
Proof. intros Hi Hvi. unfold base.forward. rewrite Hi. simpl. by rewrite Hvi. Qed.

Lemma forward_output_violation (self : E) inputs outputs ispec ospec v :
  base.get_input_specs self = Ok ispec → validate ispec inputs = None →
  base._forward self inputs = Ok outputs →
  base.get_output_specs self = Ok ospec → validate ospec outputs = Some v →
  base.forward self inputs = Raise (OutputSpecViolation v).
Proof.
  intros Hi Hvi Hf Ho Hvo. unfold base.forward.
  rewrite Hi. simpl. rewrite Hvi, Hf. simpl. rewrite Ho. simpl. by rewrite Hvo.
Qed.

End ForwardFacts.

(** ** What the constructors build *)

Section InitFacts.
Context `{Scalars} `{!Keras}.

Lemma cnn_init_inv config s s' self :
  TfCNNEncoder.__init__ config s = (s', Ok self) →
  TfCNNEncoder.config self = config ∧
  ∃ id1 id2 d rest,
    CNNEncoderConfig.output_dims config = d :: rest ∧
    TfCNNEncoder.net self = Sequential [
      TfCNN id1 (CNNEncoderConfig.input_dims config)
        (CNNEncoderConfig.cnn_filter_specifiers config)
        (CNNEncoderConfig.cnn_activation config)
        (CNNEncoderConfig.cnn_use_layernorm config)
        (CNNEncoderConfig.use_bias config);
      Flatten;
      Dense id2 d (get_activation_fn (CNNEncoderConfig.output_activation config) "tf2") true].
Proof.
  unfold TfCNNEncoder.__init__, init_bind, lift, getitem_list. simpl.
  destruct (CNNEncoderConfig.output_dims config) as [|d rest]; simpl; [discriminate|].
  intros [= <- <-]. split; [done|]. by eexists _, _, d, rest.
Qed.

Lemma mlp_init_inv config s s' self :
  TfMLPEncoder.__init__ config s = (s', Ok self) →
  TfMLPEncoder.config self = config ∧
  ∃ id din rest dout rest',
    MLPEncoderConfig.input_dims config = din :: rest ∧
    MLPEncoderConfig.output_dims config = dout :: rest' ∧
    TfMLPEncoder.net self = TfMLP id din
      (MLPEncoderConfig.hidden_layer_dims config)
      (MLPEncoderConfig.hidden_layer_activation config)
      (MLPEncoderConfig.hidden_layer_use_layernorm config)
      dout
      (MLPEncoderConfig.output_activation config)
      (MLPEncoderConfig.use_bias config).
Proof.
  unfold TfMLPEncoder.__init__, init_bind, lift, getitem_list. simpl.
  destruct (MLPEncoderConfig.input_dims config) as [|din rest]; simpl; [discriminate|].
  destruct (MLPEncoderConfig.output_dims config) as [|dout rest']; simpl; [discriminate|].
  intros [= <- <-]. split; [done|]. by eexists _, din, rest, dout, rest'.
Qed.

Lemma lstm_init_inv config s s' self :
  TfLSTMEncoder.__init__ config s = (s', Ok self) →
  TfLSTMEncoder.config self = config ∧
  ∃ id0 id1 d rest,
    LSTMEncoderConfig.output_dims config = d :: rest ∧
    TfLSTMEncoder.lstms self
      = (λ id, LSTM id (LSTMEncoderConfig.hidden_dim config)
                 (negb (LSTMEncoderConfig.batch_major config))
                 (LSTMEncoderConfig.use_bias config))
        <$> seq id0 (LSTMEncoderConfig.num_lstm_layers config) ∧
    TfLSTMEncoder.linear self = Dense id1 d None (LSTMEncoderConfig.use_bias config).
Proof.
  unfold TfLSTMEncoder.__init__, init_bind, lift, getitem_list. simpl.
  match goal with |- context [append_layers ?n ?mk ?l ?s1] =>
    destruct (append_layers_Ok n mk l s1) as [s1' ->] end.
  simpl.
  destruct (LSTMEncoderConfig.output_dims config) as [|d rest]; simpl; [discriminate|].
  intros [= <- <-]. split; [done|]. by eexists _, _, d, rest.
Qed.

Context `{!KerasShapes}.

Lemma cnn_init_net_maps config s s' self d rest :
  TfCNNEncoder.__init__ config s = (s', Ok self) →
  CNNEncoderConfig.output_dims config = d :: rest →
  net_maps (TfCNNEncoder.net self) (CNNEncoderConfig.input_dims config) d.
Proof.
  intros (_ & id1 & id2 & d' & rest' & Hd & ->)%cnn_init_inv Hd'.
  rewrite Hd' in Hd. injection Hd as <- <-.
  intros x b Hx. unfold Sequential. simpl.
  destruct (TfCNN_shape id1 _ (CNNEncoderConfig.cnn_filter_specifiers config)
              (CNNEncoderConfig.cnn_activation config)
              (CNNEncoderConfig.cnn_use_layernorm config)
              (CNNEncoderConfig.use_bias config) x b Hx) as (x1 & sh & -> & Hx1).
  simpl. destruct (Flatten_shape x1 b sh Hx1) as (x2 & -> & Hx2). simpl.
  destruct (Dense_shape id2 d
              (get_activation_fn (CNNEncoderConfig.output_activation config) "tf2")
              true x2 [b] _ Hx2) as (y & -> & Hy); [done|].
  by exists y.
Qed.

Lemma mlp_init_net_maps config s s' self din rest dout rest' :
  TfMLPEncoder.__init__ config s = (s', Ok self) →
  MLPEncoderConfig.input_dims config = din :: rest →
  MLPEncoderConfig.output_dims config = dout :: rest' →
  net_maps (TfMLPEncoder.net self) [din] dout.
Proof.
  intros (_ & id & din' & r & dout' & r' & Hi & Ho & ->)%mlp_init_inv Hi' Ho'.
  rewrite Hi' in Hi. rewrite Ho' in Ho. injection Hi as <- <-. injection Ho as <- <-.
  apply TfMLP_shape.
Qed.

Lemma lstm_init_layers config s s' self d rest :
  TfLSTMEncoder.__init__ config s = (s', Ok self) →
  LSTMEncoderConfig.output_dims config = d :: rest →
  length (TfLSTMEncoder.lstms self) = LSTMEncoderConfig.num_lstm_layers config ∧
  Forall (λ cell, lstm_accepts cell (LSTMEncoderConfig.hidden_dim config)
                    (negb (LSTMEncoderConfig.batch_major config)))
    (TfLSTMEncoder.lstms self) ∧
  dense_maps (TfLSTMEncoder.linear self) d.
Proof.
  intros (_ & id0 & id1 & d' & rest' & Hd & -> & ->)%lstm_init_inv Hd'.
  rewrite Hd' in Hd. injection Hd as <- <-. split_and!.
  - by rewrite length_fmap, length_seq.
  - apply Forall_fmap, Forall_forall. intros id _. apply LSTM_shape.
  - apply Dense_shape.
Qed.

End InitFacts.

(** ** Shapes through the recurrent encoder *)

Section LSTMShapes.
Context `{Scalars}.

(** What validation against the input specs establishes. *)
Lemma lstm_input_conforms (self : TfLSTMEncoder.t) ispec inputs :
  TfLSTMEncoder.get_input_specs self = Ok ispec →
  validate ispec inputs = None →
  ∃ obs d h_in c_in d0 rest b t b_h b_c,
    LSTMEncoderConfig.input_dims (TfLSTMEncoder.config self) = d0 :: rest ∧
    inputs !! SampleBatch.OBS = Some (VTensor obs) ∧ shape obs = [b; t; d0] ∧
    inputs !! STATE_IN = Some (VDict d) ∧
    d !! "h" = Some (VTensor h_in) ∧
    shape h_in = [b_h; LSTMEncoderConfig.num_lstm_layers (TfLSTMEncoder.config self);
                  LSTMEncoderConfig.hidden_dim (TfLSTMEncoder.config self)] ∧
    d !! "c" = Some (VTensor c_in) ∧
    shape c_in = [b_c; LSTMEncoderConfig.num_lstm_layers (TfLSTMEncoder.config self);
                  LSTMEncoderConfig.hidden_dim (TfLSTMEncoder.config self)].
Proof.
  unfold TfLSTMEncoder.get_input_specs, getitem_list.
  destruct (LSTMEncoderConfig.input_dims _) as [|d0 rest]; simpl; [discriminate|].
  intros [= <-]. unfold validate. rewrite !validate_at_dict_cons.
  destruct (inputs !! SampleBatch.OBS) as [[|obs|]|] eqn:Hobs; simpl; try discriminate.
  unfold check_tensor at 1, rank, full_shape.
  destruct (shape obs) as [|b [|t [|d0' [|]]]] eqn:Hso; simpl; try discriminate.
  case_decide as Hd0; [subst d0'|discriminate].
  destruct (inputs !! STATE_IN) as [[| |d]|] eqn:Hst; simpl; try discriminate.
  destruct (d !! "h") as [[|h_in|]|] eqn:Hh; simpl; try discriminate.
  unfold check_tensor at 1, rank, full_shape.
  destruct (shape h_in) as [|b_h [|l_h [|u_h [|]]]] eqn:Hsh; simpl; try discriminate.
  repeat (case_decide; [|discriminate]). subst l_h u_h.
  destruct (d !! "c") as [[|c_in|]|] eqn:Hc; simpl; try discriminate.
  unfold check_tensor at 1, rank, full_shape.
  destruct (shape c_in) as [|b_c [|l_c [|u_c [|]]]] eqn:Hsc; simpl; try discriminate.
  repeat (case_decide; [|discriminate]). subst l_c u_c. intros _.
  by exists obs, d, h_in, c_in, d0, rest, b, t, b_h, b_c.
Qed.

End LSTMShapes.


(** ** The actor-critic composite *)

(** C9. The composite's forward runs the forward of the actor encoder and
    of the critic encoder on the same inputs. When both return, it
    returns a mapping with exactly the two keys "actor" and "critic",
    holding the full output of the respective sub-encoder, each of which
    satisfies that sub-encoder's own output specs; when one of them
    fails, that failure is the composite's, unchanged. *)
Theorem actor_critic_forward_outputs `{Scalars} `{!base.Encoder EA, !base.Encoder EC}
    (self : TfActorCriticEncoder.t EA EC) (inputs : gmap string value) :
  match base.forward (TfActorCriticEncoder.actor_encoder self) inputs,
        base.forward (TfActorCriticEncoder.critic_encoder self) inputs with
  | Ok actor_out, Ok critic_out =>
    ∃ outputs,
      TfActorCriticEncoder.forward self inputs = Ok outputs ∧
      dom outputs = {[ACTOR; CRITIC]} ∧
      outputs !! ACTOR = Some (VDict actor_out) ∧
      outputs !! CRITIC = Some (VDict critic_out) ∧
      (∃ ospec, base.get_output_specs (TfActorCriticEncoder.actor_encoder self) = Ok ospec ∧
                validate ospec actor_out = None) ∧
      (∃ ospec, base.get_output_specs (TfActorCriticEncoder.critic_encoder self) = Ok ospec ∧
                validate ospec critic_out = None)
  | Ok _, Raise e => TfActorCriticEncoder.forward self inputs = Raise e
  | Raise e, _ => TfActorCriticEncoder.forward self inputs = Raise e
  end.
Proof.
  unfold TfActorCriticEncoder.forward.
  destruct (base.forward (TfActorCriticEncoder.actor_encoder self) inputs)
    as [actor_out|e] eqn:Ha; simpl; [|done].
  destruct (base.forward (TfActorCriticEncoder.critic_encoder self) inputs)
    as [critic_out|e] eqn:Hc; simpl; [|done].
  eexists. split; [done|]. split_and!.
  - rewrite !dom_insert_L, dom_empty_L. set_solver.
  - by rewrite lookup_insert_ne, lookup_insert_eq.
  - by rewrite lookup_insert_eq.
  - apply forward_inv in Ha as (? & ospec & _ & _ & _ & ? & ?). by exists ospec.
  - apply forward_inv in Hc as (? & ospec & _ & _ & _ & ? & ?). by exists ospec.
Qed.

(** ** The small model honours the layer contracts *)

Lemma model_keras_shapes : @KerasShapes model.Z_scalars model.keras.
Proof.
  split.
  - intros id units act use_bias x pre d Hx Hpre. simpl. unfold model.dense.
    rewrite Hx. destruct pre as [|p [|q pre]]; [done | by eexists |].
    cbn -[removelast]. eexists. split; [done|]. cbn -[removelast].
    change (p :: q :: pre ++ [d]) with ((p :: q :: pre) ++ [d]).
    by rewrite removelast_last.
  - intros x b rest Hx. simpl. unfold model.flatten. rewrite Hx. by eexists.
  - intros id dims filters act ln use_bias x b Hx. simpl. unfold model.cnn.
    rewrite Hx. rewrite decide_True by done. by exists x, dims.
  - intros id din hidden act ln dout oact use_bias x b Hx. simpl. unfold model.mlp.
    rewrite Hx. rewrite decide_True by done. by eexists.
  - intros id units time_major use_bias x h c b t d Hx Hh Hc _ _ _ _ _ _.
    simpl. unfold model.lstm.
    rewrite Hx, Hh, Hc. destruct time_major; simpl.
    all: rewrite decide_True by done; by eexists _, _, _.
Qed.

(** ** Forward on conforming inputs *)

Section ForwardSucceeds.
Context `{Scalars}.

Lemma check_tensor_bd path (y : Tensor) b d :
  shape y = [b; d] → check_tensor path (TfTensorSpec "b, d" [("d", d)]) y = None.
Proof.
  intros Hy. unfold check_tensor, rank, full_shape. rewrite Hy. simpl.
  by rewrite decide_True.
Qed.

Lemma check_tensor_btd path (y : Tensor) b t d :
  shape y = [b; t; d] → check_tensor path (TfTensorSpec "b, t, d" [("d", d)]) y = None.
Proof.
  intros Hy. unfold check_tensor, rank, full_shape. rewrite Hy. simpl.
  by rewrite decide_True.
Qed.

Lemma check_tensor_blh path (y : Tensor) b l h :
  shape y = [b; l; h] →
  check_tensor path (TfTensorSpec "b, l, h" [("h", h); ("l", l)]) y = None.
Proof.
  intros Hy. unfold check_tensor, rank, full_shape. rewrite Hy. simpl.
  by rewrite !decide_True.
Qed.

Lemma validate_at_tensor path ts (t : Tensor) :
  validate_at path (SpecTensor ts) (VTensor t) = check_tensor path ts t.
Proof. reflexivity. Qed.

Lemma validate_state path (h_out c_out : Tensor) b b' l h :
  shape h_out = [b; l; h] → shape c_out = [b'; l; h] →
  validate_at path
    (SpecDict [("h", SpecTensor (TfTensorSpec "b, l, h" [("h", h); ("l", l)]));
               ("c", SpecTensor (TfTensorSpec "b, l, h" [("h", h); ("l", l)]))])
    (VDict (<["c" := VTensor c_out]> (<["h" := VTensor h_out]> ∅)))
  = None.
Proof.
  intros Hh Hc. rewrite !validate_at_dict_cons.
  rewrite lookup_insert_ne, lookup_insert_eq by done. simpl.
  rewrite (check_tensor_blh _ h_out b l h Hh).
  rewrite lookup_insert_eq. simpl.
  by rewrite (check_tensor_blh _ c_out b' l h Hc).
Qed.

Lemma cnn_input_conforms (self : TfCNNEncoder.t) ispec inputs :
  TfCNNEncoder.get_input_specs self = Ok ispec →
  validate ispec inputs = None →
  ∃ obs w h c rest b state_in seq_lens,
    CNNEncoderConfig.input_dims (TfCNNEncoder.config self) = w :: h :: c :: rest ∧
    inputs !! SampleBatch.OBS = Some (VTensor obs) ∧ shape obs = [b; w; h; c] ∧
    inputs !! STATE_IN = Some state_in ∧
    inputs !! SampleBatch.SEQ_LENS = Some seq_lens.
Proof.
  unfold TfCNNEncoder.get_input_specs, getitem_list.
  destruct (CNNEncoderConfig.input_dims _) as [|w [|h [|c rest]]]; simpl; try discriminate.
  intros [= <-]. unfold validate. rewrite !validate_at_dict_cons.
  destruct (inputs !! SampleBatch.OBS) as [[|obs|]|] eqn:Hobs; simpl; try discriminate.
  unfold check_tensor at 1, rank, full_shape.
  destruct (shape obs) as [|b [|w' [|h' [|c' [|]]]]] eqn:Hso; simpl; try discriminate.
  repeat (case_decide; [|discriminate]). subst w' h' c'.
  destruct (inputs !! STATE_IN) as [state_in|] eqn:Hst; simpl; [|discriminate].
  destruct (inputs !! SampleBatch.SEQ_LENS) as [seq_lens|] eqn:Hsl; simpl; [|discriminate].
  intros _. by exists obs, w, h, c, rest, b, state_in, seq_lens.
Qed.

Lemma cnn_forward_succeeds (self : TfCNNEncoder.t) ispec inputs w h c d rest :
  CNNEncoderConfig.input_dims (TfCNNEncoder.config self) = [w; h; c] →
  CNNEncoderConfig.output_dims (TfCNNEncoder.config self) = d :: rest →
  net_maps (TfCNNEncoder.net self) [w; h; c] d →
  TfCNNEncoder.get_input_specs self = Ok ispec →
  validate ispec inputs = None →
  ∃ outputs obs y b,
    base.forward self inputs = Ok outputs ∧
    inputs !! SampleBatch.OBS = Some (VTensor obs) ∧ shape obs = [b; w; h; c] ∧
    outputs !! ENCODER_OUT = Some (VTensor y) ∧ shape y = [b; d].
Proof.
  intros Hin Hout Hnet Hspec Hval.
  destruct (cnn_input_conforms self ispec inputs Hspec Hval)
    as (obs & w' & h' & c' & rest' & b & state_in & seq_lens & Hin' & Hobs & Hso & Hst & _).
  rewrite Hin in Hin'. injection Hin' as <- <- <- <-.
  destruct (Hnet obs b Hso) as (y & Hy & Hys).
  eexists _, obs, y, b. split_and!; [|done..| |done].
  - eapply forward_Ok; [exact Hspec | exact Hval | | |]; simpl.
    + unfold TfCNNEncoder._forward, dict_getitem. rewrite Hobs, Hst. simpl.
      by rewrite Hy.
    + unfold TfCNNEncoder.get_output_specs. by rewrite Hout.
    + unfold validate. rewrite !validate_at_dict_cons.
      rewrite lookup_insert_ne, lookup_insert_eq by done. simpl.
      rewrite (check_tensor_bd _ y b d Hys). by rewrite lookup_insert_eq.
  - by rewrite lookup_insert_ne, lookup_insert_eq.
Qed.

Lemma mlp_forward_succeeds (self : TfMLPEncoder.t) ispec inputs din rest dout rest' :
  MLPEncoderConfig.input_dims (TfMLPEncoder.config self) = din :: rest →
  MLPEncoderConfig.output_dims (TfMLPEncoder.config self) = dout :: rest' →
  net_maps (TfMLPEncoder.net self) [din] dout →
  TfMLPEncoder.get_input_specs self = Ok ispec →
  validate ispec inputs = None →
  ∃ outputs obs y b,
    base.forward self inputs = Ok outputs ∧
    inputs !! SampleBatch.OBS = Some (VTensor obs) ∧ shape obs = [b; din] ∧
    outputs !! ENCODER_OUT = Some (VTensor y) ∧ shape y = [b; dout].
Proof.
  intros Hin Hout Hnet Hspec Hval.
  assert (∃ obs b, inputs !! SampleBatch.OBS = Some (VTensor obs) ∧ shape obs = [b; din])
    as (obs & b & Hobs & Hso).
  { revert Hspec Hval. unfold TfMLPEncoder.get_input_specs. rewrite Hin. simpl.
    intros [= <-]. unfold validate. rewrite !validate_at_dict_cons.
    destruct (inputs !! SampleBatch.OBS) as [[|obs|]|] eqn:Hobs; simpl; try discriminate.
    unfold check_tensor at 1, rank, full_shape.
    destruct (shape obs) as [|b [|d' [|]]] eqn:Hso; simpl; try discriminate.
    case_decide; [|discriminate]. subst d'. intros _. by exists obs, b. }
  destruct (Hnet obs b Hso) as (y & Hy & Hys).
  eexists _, obs, y, b. split_and!; [|done..| |done].
  - eapply forward_Ok; [exact Hspec | exact Hval | | |]; simpl.
    + unfold TfMLPEncoder._forward, dict_getitem. rewrite Hobs. simpl. by rewrite Hy.
    + unfold TfMLPEncoder.get_output_specs. by rewrite Hout.
    + unfold validate. rewrite !validate_at_dict_cons.
      rewrite lookup_insert_ne, lookup_insert_eq by done. simpl.
      rewrite (check_tensor_bd _ y b dout Hys). by rewrite lookup_insert_eq.
  - by rewrite lookup_insert_ne, lookup_insert_eq.
Qed.

End ForwardSucceeds.

(** ** The properties on concrete encoders *)

Section Concrete.
Import model.


Lemma cnn_encoder_built :
  TfCNNEncoder.__init__ cnn_config init_state0
  = ((TfCNNEncoder.__init__ cnn_config init_state0).1, Ok cnn_encoder).
Proof. reflexivity. Qed.

Lemma lstm_encoder_built :
  TfLSTMEncoder.__init__ lstm_config init_state0
  = ((TfLSTMEncoder.__init__ lstm_config init_state0).1, Ok lstm_encoder).
Proof. reflexivity. Qed.

Lemma lstm_forward_2 :
  TfLSTMEncoder._forward lstm_encoder lstm_inputs_2 = Ok lstm_outputs_2.
Proof. reflexivity. Qed.

(** The MLP encoder on a (2, 4) observation, without a state and with
    one: the state-out is [None] both times. *)
Example mlp_forward_state_out :
  (∃ outputs, base.forward mlp_encoder (mlp_inputs [2; 4]) = Ok outputs ∧
     outputs !! STATE_OUT = Some VNone) ∧
  (∃ outputs, base.forward mlp_encoder
       (<[STATE_IN := VTensor (iota [2; 7])]> (mlp_inputs [2; 4])) = Ok outputs ∧
     outputs !! STATE_OUT = Some VNone).
Proof. split; eexists; split; reflexivity. Qed.

(** Witness of C7: a CNN encoder given a state tensor returns it. *)
Lemma cnn_state_passes_through_witness :
  ∃ outputs,
    base.forward model.cnn_encoder
      (model.cnn_inputs [2; 4; 4; 3] (VTensor (model.iota [2; 7]))) = Ok outputs ∧
    outputs !! STATE_OUT = Some (VTensor (model.iota [2; 7])).
Proof.
  destruct (cnn_state_passes_through model.cnn_encoder
              (model.cnn_inputs [2; 4; 4; 3] (VTensor (model.iota [2; 7])))
              (VTensor (model.iota [2; 7])) eq_refl) as (_ & Hfw & _).
  eexists. split; [reflexivity|]. apply Hfw. reflexivity.
Defined.

(** Witness of C1: batch 2, one layer, hidden size 3. The model cell
    adds 1 to h and 2 to c, and this is what is found at the same
    [b, 0, k] of the state-out. *)
Lemma lstm_state_layout_round_trip_witness :
  ∃ h_out c_out,
    model.lstm_outputs_2 !! STATE_OUT
      = Some (VDict (<["c" := VTensor c_out]> (<["h" := VTensor h_out]> ∅))) ∧
    ∀ b k,
      val h_out [b; 0; k] = Z.add (val (model.iota [2; 1; 3]) [b; 0; k]) 1 ∧
      val c_out [b; 0; k] = Z.add (val (model.iota [2; 1; 3]) [b; 0; k]) 2.
Proof.
  destruct (lstm_state_layout_round_trip model.lstm_encoder
              model.lstm_inputs_2 model.lstm_outputs_2
              (model.lstm_state (model.iota [2; 1; 3]) (model.iota [2; 1; 3]))
              (model.iota [2; 1; 3]) (model.iota [2; 1; 3])
              eq_refl eq_refl eq_refl lstm_forward_2)
    as (h_out & c_out & Hst & Hl).
  exists h_out, c_out. split; [exact Hst|]. intros b k.
  destruct (Hl 0 (model.lstm 0 3 false) eq_refl)
    as (x & h_l & c_l & o & h' & c' & Hcell & Hvh & Hvc & Hoh & Hoc & _).
  unfold model.lstm in Hcell.
  destruct (shape x) as [|d0 [|d1 [|d2 [|]]]]; try discriminate.
  destruct (decide _); [|discriminate]. injection Hcell as _ <- <-.
  rewrite Hoh, Hoc. simpl. by rewrite Hvh, Hvc.
Defined.

(** Witness of C4: on the same inputs the specified algorithm returns
    what [_forward] returns. *)
Lemma lstm_forward_follows_algorithm_witness :
  TfLSTMEncoder.specified_forward model.lstm_encoder
    (model.iota [2; 5; 4]) (model.iota [2; 1; 3]) (model.iota [2; 1; 3])
  = Ok model.lstm_outputs_2.
Proof.
  apply (lstm_forward_follows_algorithm model.lstm_encoder model.lstm_inputs_2
           (model.iota [2; 5; 4]) (model.iota [2; 1; 3]) (model.iota [2; 1; 3])
           eq_refl eq_refl).
  exact lstm_forward_2.
Defined.


(** Counterexample to C2 as stated: two inputs that satisfy the input
    specs of the recurrent encoder and on which [forward] fails. In the
    first the state is for a batch of 3 and the observation for a batch
    of 2 (the specs bind no batch dimension); in the second the state
    carries a third entry of rank 1, which the specs ignore and
    [_forward] transposes. *)
Lemma lstm_forward_fails_on_conforming_inputs :
  ∃ ispec,
    TfLSTMEncoder.get_input_specs model.lstm_encoder = Ok ispec ∧
    (validate ispec model.lstm_inputs_batch_mismatch = None ∧
     TfLSTMEncoder._forward model.lstm_encoder model.lstm_inputs_batch_mismatch
     = Raise InvalidArgumentError ∧
     base.forward model.lstm_encoder model.lstm_inputs_batch_mismatch
     = Raise InvalidArgumentError) ∧
    (validate ispec model.lstm_inputs_extra_entry = None ∧
     TfLSTMEncoder._forward model.lstm_encoder model.lstm_inputs_extra_entry
     = Raise InvalidArgumentError ∧
     base.forward model.lstm_encoder model.lstm_inputs_extra_entry
     = Raise InvalidArgumentError).
Proof.
  eexists. split; [reflexivity|]. split; split_and!; reflexivity.
Qed.

(** C3, at the failing input. The recurrent configuration with the
    fields of its class (input_dims = (4,), output_dims = (8,),
    hidden_dim = 3, num_lstm_layers = 1, batch-major, with bias) is
    accepted by the constructor, and the input and the output specs of
    the encoder declare the state with [num_lstm_layers] layers;
    [get_initial_state] reads [num_layers] instead, which this
    configuration does not have, and raises [AttributeError]: no initial
    state is returned. *)
Theorem initial_state_raises_attribute_error :
  (TfLSTMEncoder.__init__ model.lstm_config_no_attr init_state0).2
    = Ok model.lstm_encoder_no_attr ∧
  LSTMEncoderConfig.num_layers model.lstm_config_no_attr = None ∧
  (∃ obs_spec state_spec,
     TfLSTMEncoder.get_input_specs model.lstm_encoder_no_attr
     = Ok (SpecDict [(SampleBatch.OBS, obs_spec);
                     (STATE_IN, SpecDict [("h", SpecTensor state_spec);
                                          ("c", SpecTensor state_spec)])]) ∧
     full_shape state_spec = [("b", None); ("l", Some 1); ("h", Some 3)]) ∧
  is_Ok (TfLSTMEncoder.get_output_specs model.lstm_encoder_no_attr) ∧
  TfLSTMEncoder.get_initial_state model.lstm_encoder_no_attr
    = Raise (AttributeError "num_layers").
Proof.
  split_and!; [reflexivity | reflexivity | | by eexists | reflexivity].
  eexists _, _. split; reflexivity.
Qed.

End Concrete.

(** * Further properties of the code *)

(** ** Errors and reads of the stateless encoders *)

(** X1. How [TfCNNEncoder._forward] fails and when it returns. Without an
    observation entry it raises [KeyError] for that key; an exception of
    the network is raised as it is, before the state entry is looked at;
    with an accepted observation and no state-in entry it raises
    [KeyError] for the state-in key. It returns exactly when the
    observation is a tensor the network accepts and the state-in entry is
    present. *)
Theorem cnn_forward_errors `{Scalars} (self : TfCNNEncoder.t)
    (inputs : gmap string value) :
  (inputs !! SampleBatch.OBS = None →
     TfCNNEncoder._forward self inputs = Raise (KeyError SampleBatch.OBS)) ∧
  (∀ x e, inputs !! SampleBatch.OBS = Some (VTensor x) →
     TfCNNEncoder.net self x = Raise e →
     TfCNNEncoder._forward self inputs = Raise e) ∧
  (∀ x y, inputs !! SampleBatch.OBS = Some (VTensor x) →
     TfCNNEncoder.net self x = Ok y →
     inputs !! STATE_IN = None →
     TfCNNEncoder._forward self inputs = Raise (KeyError STATE_IN)) ∧
  (∀ outputs, TfCNNEncoder._forward self inputs = Ok outputs ↔
     ∃ x y s, inputs !! SampleBatch.OBS = Some (VTensor x) ∧
       TfCNNEncoder.net self x = Ok y ∧ inputs !! STATE_IN = Some s ∧
       outputs = <[STATE_OUT := s]> (<[ENCODER_OUT := VTensor y]> ∅)).
Proof.
  unfold TfCNNEncoder._forward, dict_getitem. split_and!.
  - by intros ->.
  - intros x e -> Hnet. simpl. by rewrite Hnet.
  - intros x y -> Hnet ->. simpl. by rewrite Hnet.
  - intros outputs. split.
    + intros Hf. ok_bind Hf as obs Hobs. ok_bind Hf as x Hx.
      ok_bind Hf as y Hy. ok_bind Hf as s Hs. injection Hf as <-.
      apply as_tensor_Ok in Hx as ->.
      destruct (inputs !! SampleBatch.OBS); [|discriminate].
      destruct (inputs !! STATE_IN); [|discriminate].
      injection Hobs as ->. injection Hs as ->. by exists x, y, s.
    + intros (x & y & s & -> & Hy & -> & ->). simpl. by rewrite Hy.
Qed.

(** X2. [TfMLPEncoder._forward] reads the observation entry and nothing
    else: it returns exactly when that entry is a tensor the network
    accepts, its result then has the two keys encoder-out and state-out
    and no other, and setting or deleting any other key of the inputs
    changes neither the result nor the exception. Without an observation
    entry it raises [KeyError] for that key. *)
Theorem mlp_forward_reads_obs_only `{Scalars} (self : TfMLPEncoder.t)
    (inputs : gmap string value) :
  (inputs !! SampleBatch.OBS = None →
     TfMLPEncoder._forward self inputs = Raise (KeyError SampleBatch.OBS)) ∧
  (∀ outputs, TfMLPEncoder._forward self inputs = Ok outputs ↔
     ∃ x y, inputs !! SampleBatch.OBS = Some (VTensor x) ∧
       TfMLPEncoder.net self x = Ok y ∧
       outputs = <[STATE_OUT := VNone]> (<[ENCODER_OUT := VTensor y]> ∅)) ∧
  (∀ outputs, TfMLPEncoder._forward self inputs = Ok outputs →
     dom outputs = {[ENCODER_OUT; STATE_OUT]}) ∧
  (∀ k v, k ≠ SampleBatch.OBS →
     TfMLPEncoder._forward self (<[k := v]> inputs) = TfMLPEncoder._forward self inputs ∧
     TfMLPEncoder._forward self (delete k inputs) = TfMLPEncoder._forward self inputs).
Proof.
  assert (Hiff : ∀ outputs, TfMLPEncoder._forward self inputs = Ok outputs ↔
     ∃ x y, inputs !! SampleBatch.OBS = Some (VTensor x) ∧
       TfMLPEncoder.net self x = Ok y ∧
       outputs = <[STATE_OUT := VNone]> (<[ENCODER_OUT := VTensor y]> ∅)).
  { intros outputs. unfold TfMLPEncoder._forward, dict_getitem. split.
    - intros Hf. ok_bind Hf as obs Hobs. ok_bind Hf as x Hx. ok_bind Hf as y Hy.
      injection Hf as <-. apply as_tensor_Ok in Hx as ->.
      destruct (inputs !! SampleBatch.OBS); [|discriminate].
      injection Hobs as ->. by exists x, y.
    - intros (x & y & -> & Hy & ->). simpl. by rewrite Hy. }
  split_and!.
  - unfold TfMLPEncoder._forward, dict_getitem. by intros ->.
  - exact Hiff.
  - intros outputs (x & y & _ & _ & ->)%Hiff.
    rewrite !dom_insert_L, dom_empty_L. set_solver.
  - intros k v Hk. unfold TfMLPEncoder._forward, dict_getitem.
    by rewrite lookup_insert_ne, lookup_delete_ne.
Qed.

(** X3. [TfCNNEncoder._forward] reads the observation and the state-in
    entries and nothing else: setting or deleting any other key, the
    sequence-lengths key among them, changes neither the result nor the
    exception. *)
Theorem cnn_forward_reads_obs_and_state `{Scalars} (self : TfCNNEncoder.t)
    (inputs : gmap string value) (k : string) (v : value) :
  k ≠ SampleBatch.OBS → k ≠ STATE_IN →
  TfCNNEncoder._forward self (<[k := v]> inputs) = TfCNNEncoder._forward self inputs ∧
  TfCNNEncoder._forward self (delete k inputs) = TfCNNEncoder._forward self inputs.
Proof.
  intros Hobs Hst. unfold TfCNNEncoder._forward, dict_getitem.
  by rewrite !lookup_insert_ne, !lookup_delete_ne.
Qed.

(** X4. [TfLSTMEncoder._forward] reads the observation and the state-in
    entries and nothing else: setting or deleting any other key changes
    neither the result nor the exception. *)
Theorem lstm_forward_reads_obs_and_state `{Scalars} (self : TfLSTMEncoder.t)
    (inputs : gmap string value) (k : string) (v : value) :
  k ≠ SampleBatch.OBS → k ≠ STATE_IN →
  TfLSTMEncoder._forward self (<[k := v]> inputs) = TfLSTMEncoder._forward self inputs ∧
  TfLSTMEncoder._forward self (delete k inputs) = TfLSTMEncoder._forward self inputs.
Proof.
  intros Hobs Hst. unfold TfLSTMEncoder._forward, dict_getitem.
  by rewrite !lookup_insert_ne, !lookup_delete_ne.
Qed.

(** X5. Every result of [TfLSTMEncoder._forward] has the two keys
    encoder-out and state-out and no other, and its state-out is a
    mapping with the two keys "h" and "c" and no other: further entries
    of the state-in are not carried over. *)
Theorem lstm_forward_output_keys `{Scalars} (self : TfLSTMEncoder.t)
    (inputs outputs : gmap string value) :
  TfLSTMEncoder._forward self inputs = Ok outputs →
  dom outputs = {[ENCODER_OUT; STATE_OUT]} ∧
  ∃ state_out, outputs !! STATE_OUT = Some (VDict state_out) ∧
    dom state_out = {["h"; "c"]}.
Proof.
  intros Hf. unfold TfLSTMEncoder._forward in Hf.
  ok_bind Hf as obs Hobs. ok_bind Hf as x Hx. ok_bind Hf as st Hst.
  ok_bind Hf as states_in Hmap. ok_bind Hf as [[out hs] cs] Hloop.
  ok_bind Hf as y Hy. ok_bind Hf as h Hh. ok_bind Hf as c Hc.
  injection Hf as <-. split.
  - rewrite !dom_insert_L, dom_empty_L. set_solver.
  - eexists. split; [by rewrite lookup_insert_eq|].
    rewrite !dom_insert_L, dom_empty_L. set_solver.
Qed.

(** ** Failures of the recurrent encoder *)

Lemma bind_fails {A B} (m : result A) (f : A → result B) :
  (∀ a, ∃ e, f a = Raise e) → ∃ e, m ≫= f = Raise e.
Proof. intros Hf. destruct m as [a|e]; simpl; eauto. Qed.

(** A loop that ran to its end found a slice of "h" and of "c" for every
    cell. *)
Lemma loop_slices_Ok `{Scalars} states_in : ∀ cells i acc res,
  foldM (TfLSTMEncoder.lstm_step states_in) (zip (seq i (length cells)) cells) acc
    = Ok res →
  ∀ j, j < length cells →
    is_Ok (TfLSTMEncoder.state_slice states_in "h" (i + j)) ∧
    is_Ok (TfLSTMEncoder.state_slice states_in "c" (i + j)).
Proof.
  induction cells as [|cell cells IH]; intros i acc res Hloop j Hj; simpl in Hj; [lia|].
  simpl in Hloop. ok_bind Hloop as acc' Hstep.
  destruct j as [|j].
  - rewrite Nat.add_0_r. unfold TfLSTMEncoder.lstm_step in Hstep.
    destruct acc as [[out hs] cs].
    ok_bind Hstep as h_i Hh. ok_bind Hstep as c_i Hc. split; by eexists.
  - replace (i + S j) with (S i + j) by lia. eapply IH; [exact Hloop | lia].
Qed.

(** The leaves of a state mapping that was transposed. *)
Lemma layers_first_lookup `{Scalars} (d d' : gmap string value) k :
  tree.map_structure TfLSTMEncoder.layers_first <$> d = Ok <$> d' →
  match d !! k with
  | None => d' !! k = None
  | Some v => ∃ v', d' !! k = Some v' ∧
                    tree.map_structure TfLSTMEncoder.layers_first v = Ok v'
  end.
Proof.
  intros Hd. pose proof (f_equal (.!! k) Hd) as Hk. rewrite !lookup_fmap in Hk.
  destruct (d !! k) as [v|], (d' !! k) as [v'|]; simpl in Hk; try discriminate; [|done].
  injection Hk as Hk. by exists v'.
Qed.

(** X6. A recurrent encoder constructed for zero layers never returns
    from [_forward]: whatever the inputs, an exception is raised (when
    nothing else fails, by stacking the empty list of states). *)
Theorem lstm_no_layers_forward_fails `{Scalars} `{!Keras}
    (config : LSTMEncoderConfig.t) (s s' : InitState) (self : TfLSTMEncoder.t)
    (inputs : gmap string value) :
  TfLSTMEncoder.__init__ config s = (s', Ok self) →
  LSTMEncoderConfig.num_lstm_layers config = 0 →
  (∃ e, TfLSTMEncoder._forward self inputs = Raise e) ∧
  (∀ obs state_in states_in y,
     inputs !! SampleBatch.OBS = Some (VTensor obs) →
     inputs !! STATE_IN = Some state_in →
     tree.map_structure TfLSTMEncoder.layers_first state_in = Ok states_in →
     TfLSTMEncoder.linear self (tf.cast obs float32) = Ok y →
     TfLSTMEncoder._forward self inputs = Raise IndexError).
Proof.
  intros (_ & id0 & _ & _ & _ & _ & Hl & _)%lstm_init_inv HL.
  rewrite HL in Hl. simpl in Hl. unfold TfLSTMEncoder._forward. rewrite Hl. split.
  - apply bind_fails. intros obs. apply bind_fails. intros x.
    apply bind_fails. intros st. apply bind_fails. intros states_in.
    cbn [enumerate length seq zip zip_with foldM mbind result_bind].
    apply bind_fails. intros y. simpl. by eexists.
  - intros obs state_in states_in y Hobs Hst Hmap Hy. unfold dict_getitem.
    rewrite Hobs, Hst. cbn [mbind result_bind as_tensor]. rewrite Hmap.
    cbn [enumerate length seq zip zip_with foldM mbind result_bind].
    rewrite Hy. reflexivity.
Qed.

(** X7. [_forward] of the recurrent encoder transposes every entry of the
    state-in mapping, so it fails whenever one of them, whatever its key,
    is [None] or a tensor that is not of rank 3. *)
Theorem lstm_forward_rejects_state_entry `{Scalars} (self : TfLSTMEncoder.t)
    (inputs d : gmap string value) (k : string) (v : value) :
  inputs !! STATE_IN = Some (VDict d) →
  d !! k = Some v →
  v = VNone ∨ (∃ x, v = VTensor x ∧ rank x ≠ 3) →
  ∃ e, TfLSTMEncoder._forward self inputs = Raise e.
Proof.
  intros Hst Hk Hv.
  destruct (TfLSTMEncoder._forward self inputs) as [outputs|e] eqn:Hf; [exfalso|by eexists].
  unfold TfLSTMEncoder._forward in Hf.
  ok_bind Hf as obs Hobs. ok_bind Hf as x Hx. ok_bind Hf as st Hst'.
  ok_bind Hf as states_in Hmap.
  apply dict_getitem_Ok in Hst'. rewrite Hst in Hst'. injection Hst' as <-.
  apply map_structure_dict_inv in Hmap as (d' & -> & Hd').
  pose proof (layers_first_lookup d d' k Hd') as Hlk. rewrite Hk in Hlk.
  destruct Hlk as (v' & _ & Hv').
  destruct Hv as [->|(t & -> & Hr)]; [discriminate|].
  simpl in Hv'. unfold TfLSTMEncoder.layers_first in Hv'. simpl in Hv'.
  ok_step Hv'. unfold tf.transpose in E.
  destruct (decide _) as [[Hlen _]|]; [|discriminate]. by rewrite <- Hlen in Hr.
Qed.

(** X8. [_forward] of the recurrent encoder fails whenever the state-in
    entry is [None] or a tensor instead of a mapping. *)
Theorem lstm_forward_needs_state_mapping `{Scalars} (self : TfLSTMEncoder.t)
    (inputs : gmap string value) (v : value) :
  inputs !! STATE_IN = Some v →
  v = VNone ∨ (∃ x, v = VTensor x) →
  ∃ e, TfLSTMEncoder._forward self inputs = Raise e.
Proof.
  intros Hst Hv.
  destruct (TfLSTMEncoder._forward self inputs) as [outputs|e] eqn:Hf; [exfalso|by eexists].
  unfold TfLSTMEncoder._forward in Hf.
  ok_bind Hf as obs Hobs. ok_bind Hf as x Hx. ok_bind Hf as st Hst'.
  ok_bind Hf as states_in Hmap. ok_bind Hf as [[out hs] cs] Hloop.
  ok_bind Hf as y Hy. ok_bind Hf as h Hh. ok_bind Hf as c Hc.
  apply dict_getitem_Ok in Hst'. rewrite Hst in Hst'. injection Hst' as <-.
  destruct Hv as [->|[t ->]]; [discriminate|].
  simpl in Hmap. unfold TfLSTMEncoder.layers_first in Hmap. simpl in Hmap.
  ok_step Hmap. subst states_in. unfold enumerate in Hloop.
  destruct (TfLSTMEncoder.lstms self) as [|cell cells].
  - simpl in Hloop. injection Hloop as <- <- <-. discriminate.
  - destruct (loop_slices_Ok _ _ _ _ _ Hloop 0) as [[? Hslice] _]; [simpl; lia|].
    discriminate.
Qed.

(** X9. With at least one cell, [_forward] of the recurrent encoder fails
    whenever the state-in mapping lacks "h" or lacks "c"; when "h" is the
    missing one and the observation and all entries of the state-in are
    fine, the exception is [KeyError] for "h". *)
Theorem lstm_forward_needs_h_and_c `{Scalars} (self : TfLSTMEncoder.t)
    (inputs d : gmap string value) :
  TfLSTMEncoder.lstms self ≠ [] →
  inputs !! STATE_IN = Some (VDict d) →
  d !! "h" = None ∨ d !! "c" = None →
  (∃ e, TfLSTMEncoder._forward self inputs = Raise e) ∧
  (∀ obs states_in,
     inputs !! SampleBatch.OBS = Some (VTensor obs) →
     tree.map_structure TfLSTMEncoder.layers_first (VDict d) = Ok states_in →
     d !! "h" = None →
     TfLSTMEncoder._forward self inputs = Raise (KeyError "h")).
Proof.
  intros Hcells Hst Hmiss. split.
  - destruct (TfLSTMEncoder._forward self inputs) as [outputs|e] eqn:Hf;
      [exfalso|by eexists].
    unfold TfLSTMEncoder._forward in Hf.
    ok_bind Hf as obs Hobs. ok_bind Hf as x Hx. ok_bind Hf as st Hst'.
    ok_bind Hf as states_in Hmap. ok_bind Hf as [[out hs] cs] Hloop.
    apply dict_getitem_Ok in Hst'. rewrite Hst in Hst'. injection Hst' as <-.
    apply map_structure_dict_inv in Hmap as (d' & -> & Hd').
    unfold enumerate in Hloop.
    destruct (TfLSTMEncoder.lstms self) as [|cell cells]; [done|].
    destruct (loop_slices_Ok _ _ _ _ _ Hloop 0) as [[h_0 Hh] [c_0 Hc]]; [simpl; lia|].
    unfold TfLSTMEncoder.state_slice in Hh, Hc. simpl in Hh, Hc.
    ok_bind Hh as vh Hvh. ok_bind Hc as vc Hvc.
    apply dict_getitem_Ok in Hvh, Hvc.
    pose proof (layers_first_lookup d d' "h" Hd') as Hlh.
    pose proof (layers_first_lookup d d' "c" Hd') as Hlc.
    destruct Hmiss as [Hm|Hm]; rewrite Hm in *; congruence.
  - intros obs states_in Hobs Hmap Hh.
    pose proof Hmap as Hmap'.
    apply map_structure_dict_inv in Hmap' as (d' & -> & Hd').
    pose proof (layers_first_lookup d d' "h" Hd') as Hlh. rewrite Hh in Hlh.
    unfold TfLSTMEncoder._forward, dict_getitem. rewrite Hobs, Hst.
    cbn [mbind result_bind as_tensor]. rewrite Hmap. cbn [mbind result_bind].
    destruct (TfLSTMEncoder.lstms self) as [|cell cells]; [done|].
    unfold enumerate.
    cbn [length seq zip zip_with foldM mbind result_bind TfLSTMEncoder.lstm_step].
    assert (Hslice : TfLSTMEncoder.state_slice (VDict d') "h" 0 = Raise (KeyError "h")).
    { unfold TfLSTMEncoder.state_slice. cbn [subscript]. unfold dict_getitem.
      by rewrite Hlh. }
    by rewrite Hslice.
Qed.

(** X10. [_forward] of the recurrent encoder fails whenever the "h" or
    the "c" tensor of the state-in has fewer layers (second axis) than
    the encoder has cells. *)
Theorem lstm_forward_needs_a_slice_per_cell `{Scalars} (self : TfLSTMEncoder.t)
    (inputs d : gmap string value) (name : string) (x : Tensor) (b l u : nat) :
  inputs !! STATE_IN = Some (VDict d) →
  name = "h" ∨ name = "c" →
  d !! name = Some (VTensor x) →
  shape x = [b; l; u] →
  l < length (TfLSTMEncoder.lstms self) →
  ∃ e, TfLSTMEncoder._forward self inputs = Raise e.
Proof.
  intros Hst Hname Hx Hsh Hl.
  destruct (TfLSTMEncoder._forward self inputs) as [outputs|e] eqn:Hf; [exfalso|by eexists].
  unfold TfLSTMEncoder._forward in Hf.
  ok_bind Hf as obs Hobs. ok_bind Hf as x0 Hx0. ok_bind Hf as st Hst'.
  ok_bind Hf as states_in Hmap. ok_bind Hf as [[out hs] cs] Hloop.
  apply dict_getitem_Ok in Hst'. rewrite Hst in Hst'. injection Hst' as <-.
  apply map_structure_dict_inv in Hmap as (d' & -> & Hd').
  pose proof (layers_first_lookup d d' name Hd') as Hlk. rewrite Hx in Hlk.
  destruct Hlk as (v' & Hv' & Hlf).
  simpl in Hlf. unfold TfLSTMEncoder.layers_first in Hlf. simpl in Hlf.
  ok_step Hlf. subst v'.
  apply transpose_102_inv in E as (b' & l' & u' & Hsh' & Hsh_lf & _).
  rewrite Hsh in Hsh'. injection Hsh' as <- <- <-.
  unfold enumerate in Hloop.
  destruct (loop_slices_Ok _ _ _ _ _ Hloop l Hl) as [[h_l Hh] [c_l Hc]].
  simpl in Hh, Hc.
  destruct Hname as [-> | ->].
  - rewrite (state_slice_dict _ _ _ _ Hv') in Hh.
    apply getitem_inv in Hh as (n & Hn & Hlt & _). rewrite Hsh_lf in Hn.
    injection Hn as <- _. lia.
  - rewrite (state_slice_dict _ _ _ _ Hv') in Hc.
    apply getitem_inv in Hc as (n & Hn & Hlt & _). rewrite Hsh_lf in Hn.
    injection Hn as <- _. lia.
Qed.

(** ** Construction and specs *)

Lemma append_layers_run {L} n (mk : nat → L) layers s :
  append_layers n mk layers s
  = ({| calls := calls s; layers_created := layers_created s + n |},
     Ok (layers ++ (mk <$> seq (layers_created s) n))).
Proof.
  revert layers s. induction n as [|n IH]; intros layers [cs k]; simpl.
  - unfold init_ret. by rewrite app_nil_r, Nat.add_0_r.
  - unfold init_bind. simpl. rewrite IH. simpl. rewrite <- app_assoc. simpl.
    by replace (k + S n) with (S (k + n)) by lia.
Qed.

(** X12. What the constructor of the recurrent encoder does: it logs the
    call of the framework-model initialiser, creates [num_lstm_layers]
    LSTM layers, each a new layer object with [hidden_dim] units,
    [time_major = not batch_major] and the configured [use_bias], and
    then a dense layer with [output_dims[0]] units, no activation and the
    configured [use_bias]. With empty [output_dims] it raises
    [IndexError], after the LSTM layers were created. Nothing else of the
    configuration is read. *)
Theorem lstm_init_builds `{Scalars} `{!Keras} (config : LSTMEncoderConfig.t)
    (s : InitState) :
  TfLSTMEncoder.__init__ config s
  = match LSTMEncoderConfig.output_dims config with
    | [] =>
      ({| calls := calls s ++ [TfModel_init];
          layers_created := layers_created s + LSTMEncoderConfig.num_lstm_layers config |},
       Raise IndexError)
    | units :: _ =>
      ({| calls := calls s ++ [TfModel_init];
          layers_created :=
            S (layers_created s + LSTMEncoderConfig.num_lstm_layers config) |},
       Ok {| TfLSTMEncoder.config := config;
             TfLSTMEncoder.lstms :=
               (λ id, LSTM id (LSTMEncoderConfig.hidden_dim config)
                        (negb (LSTMEncoderConfig.batch_major config))
                        (LSTMEncoderConfig.use_bias config))
               <$> seq (layers_created s) (LSTMEncoderConfig.num_lstm_layers config);
             TfLSTMEncoder.linear :=
               Dense (layers_created s + LSTMEncoderConfig.num_lstm_layers config)
                 units None (LSTMEncoderConfig.use_bias config) |})
    end.
Proof.
  unfold TfLSTMEncoder.__init__, init_bind, call_init, lift, getitem_list.
  rewrite append_layers_run. simpl.
  by destruct (LSTMEncoderConfig.output_dims config).
Qed.

(** X13. An encoder that was constructed has output specs: on a CNN, MLP
    or recurrent encoder returned by its constructor [get_output_specs]
    does not raise, and on an MLP encoder [get_input_specs] does not
    raise either. *)
Theorem constructed_encoders_have_output_specs `{Scalars} `{!Keras} (s s' : InitState) :
  (∀ config self, TfCNNEncoder.__init__ config s = (s', Ok self) →
     is_Ok (TfCNNEncoder.get_output_specs self)) ∧
  (∀ config self, TfMLPEncoder.__init__ config s = (s', Ok self) →
     is_Ok (TfMLPEncoder.get_input_specs self) ∧
     is_Ok (TfMLPEncoder.get_output_specs self)) ∧
  (∀ config self, TfLSTMEncoder.__init__ config s = (s', Ok self) →
     is_Ok (TfLSTMEncoder.get_output_specs self)).
Proof.
  split_and!.
  - intros config self (Hcfg & _ & _ & d & rest & Hout & _)%cnn_init_inv.
    unfold TfCNNEncoder.get_output_specs, getitem_list. rewrite Hcfg, Hout. by eexists.
  - intros config self (Hcfg & _ & din & r & dout & r' & Hin & Hout & _)%mlp_init_inv.
    unfold TfMLPEncoder.get_input_specs, TfMLPEncoder.get_output_specs, getitem_list.
    rewrite Hcfg, Hin, Hout. split; by eexists.
  - intros config self (Hcfg & _ & _ & d & rest & Hout & _)%lstm_init_inv.
    unfold TfLSTMEncoder.get_output_specs, getitem_list. rewrite Hcfg, Hout. by eexists.
Qed.

(** X15. [get_input_specs] of the CNN encoder raises [IndexError]
    exactly when [input_dims] has fewer than three entries. When the
    first three entries are positive, it binds w, h and c of the
    observation to them, whatever follows them, and requires the state-in
    and sequence-lengths keys without constraining them. *)
Theorem cnn_input_specs_need_three_dims `{Scalars} (self : TfCNNEncoder.t) :
  (length (CNNEncoderConfig.input_dims (TfCNNEncoder.config self)) < 3 ↔
   TfCNNEncoder.get_input_specs self = Raise IndexError) ∧
  (∀ w h c rest,
     CNNEncoderConfig.input_dims (TfCNNEncoder.config self) = w :: h :: c :: rest →
     1 ≤ w → 1 ≤ h → 1 ≤ c →
     ∃ ts, TfCNNEncoder.get_input_specs self
           = Ok (SpecDict [(SampleBatch.OBS, SpecTensor ts);
                           (STATE_IN, SpecNone); (SampleBatch.SEQ_LENS, SpecNone)]) ∧
       full_shape ts = [("b", None); ("w", Some w); ("h", Some h); ("c", Some c)]).
Proof.
  unfold TfCNNEncoder.get_input_specs, getitem_list. split.
  - destruct (CNNEncoderConfig.input_dims _) as [|w [|h [|c rest]]]; simpl;
      (split; [intros; try done; lia | intros; try discriminate; lia]).
  - intros w h c rest -> _ _ _. simpl. eexists. split; reflexivity.
Qed.

(** ** Shapes of the results *)

(** X16. Shapes through [_forward] of constructed CNN and MLP encoders,
    for layers with the shapes Keras documents. The CNN encoder maps an
    observation of shape (b, *input_dims), with any state-in entry, to an
    encoder-out of shape (b, output_dims[0]); the MLP encoder maps an
    observation of shape (b, input_dims[0]) to an encoder-out of shape
    (b, output_dims[0]). *)
Theorem stateless_forward_shapes `{Scalars} `{!Keras} `{!KerasShapes} (s s' : InitState) :
  (∀ config (self : TfCNNEncoder.t) inputs obs b state_in,
     TfCNNEncoder.__init__ config s = (s', Ok self) →
     inputs !! SampleBatch.OBS = Some (VTensor obs) →
     shape obs = b :: CNNEncoderConfig.input_dims config →
     inputs !! STATE_IN = Some state_in →
     ∃ y units,
       TfCNNEncoder._forward self inputs
       = Ok (<[STATE_OUT := state_in]> (<[ENCODER_OUT := VTensor y]> ∅)) ∧
       CNNEncoderConfig.output_dims config !! 0 = Some units ∧
       shape y = [b; units]) ∧
  (∀ config (self : TfMLPEncoder.t) inputs obs b din,
     TfMLPEncoder.__init__ config s = (s', Ok self) →
     inputs !! SampleBatch.OBS = Some (VTensor obs) →
     MLPEncoderConfig.input_dims config !! 0 = Some din →
     shape obs = [b; din] →
     ∃ y units,
       TfMLPEncoder._forward self inputs
       = Ok (<[STATE_OUT := VNone]> (<[ENCODER_OUT := VTensor y]> ∅)) ∧
       MLPEncoderConfig.output_dims config !! 0 = Some units ∧
       shape y = [b; units]).
Proof.
  split.
  - intros config self inputs obs b state_in Hinit Hobs Hso Hst.
    pose proof (cnn_init_inv _ _ _ _ Hinit) as (_ & _ & _ & units & rest & Hout & _).
    destruct (cnn_init_net_maps _ _ _ _ _ _ Hinit Hout obs b Hso) as (y & Hy & Hys).
    exists y, units. split_and!; [|by rewrite Hout|done].
    unfold TfCNNEncoder._forward, dict_getitem. rewrite Hobs, Hst. simpl. by rewrite Hy.
  - intros config self inputs obs b din Hinit Hobs Hin Hso.
    pose proof (mlp_init_inv _ _ _ _ Hinit)
      as (_ & _ & din' & r & units & r' & Hin' & Hout & _).
    rewrite Hin' in Hin. injection Hin as ->.
    destruct (mlp_init_net_maps _ _ _ _ _ _ _ _ Hinit Hin' Hout obs b Hso) as (y & Hy & Hys).
    exists y, units. split_and!; [|by rewrite Hout|done].
    unfold TfMLPEncoder._forward, dict_getitem. rewrite Hobs. simpl. by rewrite Hy.
Qed.

(** ** Further entries of the state *)

Section FurtherEntries.
Context `{Scalars}.

(** A sequence that fails, fails with the exception of one of its
    entries. *)
Lemma sequence_Raise (m : gmap string (result value)) e :
  tree.sequence m = Raise e → ∃ k, m !! k = Some (Raise e).
Proof.
  revert e. unfold tree.sequence.
  apply (map_fold_weak_ind (λ r m, ∀ e, r = Raise e → ∃ k, m !! k = Some (Raise e)));
    clear m.
  - discriminate.
  - intros i x m r Hi IH e Hc. unfold tree.collect in Hc.
    destruct r as [mr|e']; simpl in Hc.
    + destruct x as [v|e']; simpl in Hc; [discriminate|]. injection Hc as ->.
      exists i. by rewrite lookup_insert_eq.
    + injection Hc as ->. destruct (IH e eq_refl) as [k Hk]. exists k.
      rewrite lookup_insert_ne; [done|]. intros ->. by rewrite Hi in Hk.
Qed.

Lemma transpose_102_rank (x : Tensor) :
  rank x = 3 → ∃ y, tf.transpose x [1; 0; 2] = Ok y.
Proof.
  unfold rank. destruct (shape x) as [|a [|b [|c [|]]]] eqn:Hsh; try discriminate.
  intros _. destruct (transpose_102 x a b c Hsh) as (y & Hy & _). by exists y.
Qed.

Lemma transpose_102_Raise (x : Tensor) e :
  tf.transpose x [1; 0; 2] = Raise e → e = InvalidArgumentError.
Proof. unfold tf.transpose. destruct (decide _); [discriminate|]. by intros [= <-]. Qed.

(** Transposing such a mapping succeeds exactly when transposing its "h"
    and "c" does, and fails with their exception otherwise. *)
Lemma map_structure_further_entries (d : gmap string value) h_in c_in :
  further_entries_of_rank_3 d →
  d !! "h" = Some (VTensor h_in) → d !! "c" = Some (VTensor c_in) →
  match tf.transpose h_in [1; 0; 2], tf.transpose c_in [1; 0; 2] with
  | Ok h_lf, Ok c_lf =>
    ∃ d', tree.map_structure TfLSTMEncoder.layers_first (VDict d) = Ok (VDict d') ∧
      d' !! "h" = Some (VTensor h_lf) ∧ d' !! "c" = Some (VTensor c_lf)
  | _, _ =>
    tree.map_structure TfLSTMEncoder.layers_first (VDict d) = Raise InvalidArgumentError
  end.
Proof.
  intros Hd Hh Hc.
  assert (Hleaf : ∀ x, tree.map_structure TfLSTMEncoder.layers_first (VTensor x)
                       = VTensor <$> tf.transpose x [1; 0; 2]) by done.
  destruct (tree.map_structure TfLSTMEncoder.layers_first (VDict d)) as [v|e] eqn:Hmap.
  - apply map_structure_dict_inv in Hmap as (d' & -> & Hd').
    pose proof (layers_first_lookup d d' "h" Hd') as Hlh. rewrite Hh in Hlh.
    pose proof (layers_first_lookup d d' "c" Hd') as Hlc. rewrite Hc in Hlc.
    destruct Hlh as (vh & Hvh & Hth). destruct Hlc as (vc & Hvc & Htc).
    rewrite Hleaf in Hth, Htc. ok_step Hth. ok_step Htc. subst vh vc.
    rewrite E, E0. by exists d'.
  - assert (e = InvalidArgumentError) as ->.
    { simpl in Hmap. destruct (tree.sequence _) as [|e'] eqn:Hseq; [discriminate|].
      injection Hmap as ->. apply sequence_Raise in Hseq as [k Hk].
      rewrite lookup_fmap in Hk. destruct (d !! k) as [v|] eqn:Hv; [|discriminate].
      destruct (Hd k v Hv) as (x & -> & _). injection Hk as Hk.
      change (VTensor <$> tf.transpose x [1; 0; 2] = Raise e) in Hk.
      destruct (tf.transpose x [1; 0; 2]) eqn:Ht; [discriminate|].
      injection Hk as <-. by eapply transpose_102_Raise. }
    destruct (tf.transpose h_in [1; 0; 2]) as [h_lf|] eqn:Hth; [|done].
    destruct (tf.transpose c_in [1; 0; 2]) as [c_lf|] eqn:Htc; [|done].
    exfalso.
    assert (Hall : tree.map_structure TfLSTMEncoder.layers_first <$> d
                   = Ok <$> ((λ v, match tree.map_structure TfLSTMEncoder.layers_first v with
                                   | Ok v' => v'
                                   | Raise _ => VNone
                                   end) <$> d)).
    { apply map_eq. intros k. rewrite !lookup_fmap.
      destruct (d !! k) as [v|] eqn:Hv; [|done]. simpl. f_equal.
      destruct (Hd k v Hv) as (x & -> & Hk). rewrite Hleaf.
      destruct Hk as [-> | [-> | Hr]].
      - rewrite Hh in Hv. injection Hv as <-. by rewrite Hth.
      - rewrite Hc in Hv. injection Hv as <-. by rewrite Htc.
      - destruct (transpose_102_rank x Hr) as [y ->]. done. }
    apply map_structure_dict_Ok in Hall. congruence.
Qed.

End FurtherEntries.

(** X17. Entries of the state-in besides "h" and "c" that are tensors of
    rank 3 have no influence on [_forward] of the recurrent encoder: the
    result, or the exception, is the one for the state-in that holds "h"
    and "c" alone. *)
Theorem lstm_forward_ignores_further_state_entries `{Scalars} (self : TfLSTMEncoder.t)
    (inputs d : gmap string value) (h_in c_in : Tensor) :
  inputs !! STATE_IN = Some (VDict d) →
  d !! "h" = Some (VTensor h_in) →
  d !! "c" = Some (VTensor c_in) →
  further_entries_of_rank_3 d →
  TfLSTMEncoder._forward self inputs
  = TfLSTMEncoder._forward self
      (<[STATE_IN := VDict (<["c" := VTensor c_in]> (<["h" := VTensor h_in]> ∅))]> inputs).
Proof.
  intros Hst Hh Hc Hd.
  pose proof (map_structure_further_entries d h_in c_in Hd Hh Hc) as Hmap.
  assert (Hd2 : further_entries_of_rank_3
                  (<["c" := VTensor c_in]> (<["h" := VTensor h_in]> ∅))).
  { intros k v Hk. destruct (decide (k = "c")) as [->|Hkc].
    - rewrite lookup_insert_eq in Hk. injection Hk as <-. eauto.
    - rewrite lookup_insert_ne in Hk by done. destruct (decide (k = "h")) as [->|Hkh].
      + rewrite lookup_insert_eq in Hk. injection Hk as <-. eauto.
      + by rewrite lookup_insert_ne in Hk. }
  pose proof (map_structure_further_entries _ h_in c_in Hd2
                ltac:(by rewrite lookup_insert_ne, lookup_insert_eq)
                ltac:(by rewrite lookup_insert_eq)) as Hmap2.
  unfold TfLSTMEncoder._forward, dict_getitem.
  rewrite (lookup_insert_ne _ STATE_IN SampleBatch.OBS) by done.
  rewrite lookup_insert_eq, Hst.
  destruct (inputs !! SampleBatch.OBS) as [obs|]; [|done].
  cbn [mbind result_bind]. destruct (as_tensor obs) as [x|]; [|done].
  cbn [mbind result_bind].
  destruct (tf.transpose h_in [1; 0; 2]) as [h_lf|];
    [|by rewrite Hmap, Hmap2].
  destruct (tf.transpose c_in [1; 0; 2]) as [c_lf|];
    [|by rewrite Hmap, Hmap2].
  destruct Hmap as (d1 & -> & Hh1 & Hc1). destruct Hmap2 as (d2 & -> & Hh2 & Hc2).
  cbn [mbind result_bind]. unfold enumerate.
  rewrite (loop_run_cells (VDict d1) h_lf c_lf)
    by (intros j; by apply state_slice_dict).
  by rewrite (loop_run_cells (VDict d2) h_lf c_lf)
    by (intros j; by apply state_slice_dict).
Qed.

(** * The forward contract *)

(** ** The recurrent encoder on conforming inputs *)

Section RecurrentForward.
Context `{Scalars}.

Lemma further_entries_h_c (h_in c_in : Tensor) :
  further_entries_of_rank_3 (<["c" := VTensor c_in]> (<["h" := VTensor h_in]> ∅)).
Proof.
  intros k v Hk. destruct (decide (k = "c")) as [->|Hkc].
  - rewrite lookup_insert_eq in Hk. injection Hk as <-. eauto.
  - rewrite lookup_insert_ne in Hk by done. destruct (decide (k = "h")) as [->|Hkh].
    + rewrite lookup_insert_eq in Hk. injection Hk as <-. eauto.
    + by rewrite lookup_insert_ne in Hk.
Qed.

(** The steps of [_forward] on a state mapping that was transposed entry
    by entry. *)
Lemma lstm_forward_entries_Ok (self : TfLSTMEncoder.t) inputs obs
    (d d' : gmap string value) h_lf c_lf last states y h_out c_out :
  inputs !! SampleBatch.OBS = Some (VTensor obs) →
  inputs !! STATE_IN = Some (VDict d) →
  tree.map_structure TfLSTMEncoder.layers_first (VDict d) = Ok (VDict d') →
  d' !! "h" = Some (VTensor h_lf) → d' !! "c" = Some (VTensor c_lf) →
  TfLSTMEncoder.run_cells h_lf c_lf 0 (TfLSTMEncoder.lstms self)
    (tf.cast obs float32) = Ok (last, states) →
  TfLSTMEncoder.linear self last = Ok y →
  tf.stack (states.*1) 1 = Ok h_out →
  tf.stack (states.*2) 1 = Ok c_out →
  TfLSTMEncoder._forward self inputs
  = Ok (<[STATE_OUT := VDict (<["c" := VTensor c_out]> (<["h" := VTensor h_out]> ∅))]>
       (<[ENCODER_OUT := VTensor y]> ∅)).
Proof.
  intros Hobs Hst Hms Hh Hc Hrun Hlin Hsh Hsc.
  unfold TfLSTMEncoder._forward, dict_getitem. rewrite Hobs, Hst.
  cbn [mbind result_bind as_tensor]. rewrite Hms. cbn [mbind result_bind].
  unfold enumerate.
  rewrite (loop_run_cells _ h_lf c_lf); [| intros j; by apply state_slice_dict..].
  rewrite Hrun. simpl. rewrite Hlin. simpl. rewrite Hsh. simpl. by rewrite Hsc.
Qed.

(** The cells run one after the other: each is given a sequence of the
    dtype of the state slices, the first the observation, the others the
    output sequence of the cell before. *)
Lemma run_cells_succeeds h_lf c_lf L b units time_major t :
  shape h_lf = [L; b; units] → shape c_lf = [L; b; units] →
  1 ≤ b → 1 ≤ t → 1 ≤ units →
  ∀ cells i x d,
    Forall (λ cell, lstm_accepts cell units time_major) cells →
    i + length cells ≤ L →
    shape x = seq_shape time_major b t d → 1 ≤ d →
    dtype h_lf = dtype x → dtype c_lf = dtype x →
    ∃ last states,
      TfLSTMEncoder.run_cells h_lf c_lf i cells x = Ok (last, states) ∧
      shape last = seq_shape time_major b t (match cells with [] => d | _ => units end) ∧
      length states = length cells ∧
      Forall (λ hc, (shape hc.1 = [b; units] ∧ dtype hc.1 = dtype h_lf) ∧
                    (shape hc.2 = [b; units] ∧ dtype hc.2 = dtype c_lf)) states.
Proof.
  intros Hh Hc Hb Ht Hu cells.
  induction cells as [|cell cells IH]; intros i x d Hall Hlen Hx Hd Hdh Hdc; simpl in *.
  - by exists x, [].
  - apply Forall_cons in Hall as [Hcell Hall].
    destruct (getitem_Ok h_lf L [b; units] i Hh) as (h_i & -> & Hhi & Hdhi & _); [lia|].
    destruct (getitem_Ok c_lf L [b; units] i Hc) as (c_i & -> & Hci & Hdci & _); [lia|].
    simpl.
    destruct (Hcell x h_i c_i b t d Hx Hhi Hci)
      as (o & h' & c' & -> & Ho & Hdo & Hh' & Hc' & Hdh' & Hdc');
      [congruence | congruence | done.. |].
    simpl.
    destruct (IH (S i) o units Hall) as (last & states & -> & Hlast & Hlen' & Hst);
      [lia | done | done | congruence | congruence |].
    simpl. exists last, ((h', c') :: states). split_and!; [done | | simpl; by rewrite Hlen' |].
    + by destruct cells.
    + constructor; [|done]. simpl. by rewrite Hdh', Hdc'.
Qed.

(** With cells and a projection that honour their contracts, at least one
    cell, a sequence of at least one step, and "h" and "c" tensors of
    dtype float32 that agree with the observation on the batch size,
    [_forward] returns, and the state it returns has the shape and dtype
    of the state it was given. The state may hold further entries of
    rank 3. *)
Lemma lstm_forward_succeeds (self : TfLSTMEncoder.t) inputs obs (d : gmap string value)
    h_in c_in L b t feat units time_major d_out :
  inputs !! SampleBatch.OBS = Some (VTensor obs) →
  inputs !! STATE_IN = Some (VDict d) →
  d !! "h" = Some (VTensor h_in) → d !! "c" = Some (VTensor c_in) →
  further_entries_of_rank_3 d →
  shape obs = seq_shape time_major b t feat →
  shape h_in = [b; L; units] → shape c_in = [b; L; units] →
  dtype h_in = float32 → dtype c_in = float32 →
  1 ≤ b → 1 ≤ t → 1 ≤ feat → 1 ≤ units →
  length (TfLSTMEncoder.lstms self) = L → 1 ≤ L →
  Forall (λ cell, lstm_accepts cell units time_major) (TfLSTMEncoder.lstms self) →
  dense_maps (TfLSTMEncoder.linear self) d_out →
  ∃ y h_out c_out,
    TfLSTMEncoder._forward self inputs
    = Ok (<[STATE_OUT := VDict (<["c" := VTensor c_out]> (<["h" := VTensor h_out]> ∅))]>
         (<[ENCODER_OUT := VTensor y]> ∅)) ∧
    shape y = seq_shape time_major b t d_out ∧
    (shape h_out = shape h_in ∧ dtype h_out = dtype h_in) ∧
    (shape c_out = shape c_in ∧ dtype c_out = dtype c_in).
Proof.
  intros Hobs Hst Hh Hc Hd Hso Hsh Hsc Hdh Hdc Hb Ht Hfeat Hu HL HL1 Hcells Hlin.
  destruct (transpose_102 h_in b L units Hsh) as (h_lf & Hth & Hh_lf & Hdh_lf & _).
  destruct (transpose_102 c_in b L units Hsc) as (c_lf & Htc & Hc_lf & Hdc_lf & _).
  pose proof (map_structure_further_entries d h_in c_in Hd Hh Hc) as Hmap.
  rewrite Hth, Htc in Hmap. destruct Hmap as (d' & Hmap & Hh' & Hc').
  destruct (run_cells_succeeds h_lf c_lf L b units time_major t Hh_lf Hc_lf Hb Ht Hu
              (TfLSTMEncoder.lstms self) 0 (tf.cast obs float32) feat Hcells)
    as (last & states & Hrun & Hlast & Hlen & Hstates);
    [lia | done | done | simpl; congruence | simpl; congruence |].
  destruct (TfLSTMEncoder.lstms self) as [|cell0 cells] eqn:Hl; [simpl in HL; lia|].
  rewrite <- Hl in Hrun.
  destruct states as [|[h0 c0] states]; [discriminate|].
  apply Forall_cons in Hstates as [[[Hsh0 Hdh0] [Hsc0 Hdc0]] Hstates]. simpl in *.
  destruct (Hlin last (if time_major then [t; b] else [b; t]) units)
    as (y & Hy & Hys); [by destruct time_major.. |].
  destruct (stack_1_Ok (h0 :: states.*1) h0 b units) as (h_out & Hho & Hhs & Hhd);
    [done.. | |].
  { constructor; [done|]. apply Forall_fmap. eapply Forall_impl; [exact Hstates|].
    intros [h' c'] [[Hs1 Hd1] _]. simpl in *. by rewrite Hs1, Hd1, Hsh0, Hdh0. }
  destruct (stack_1_Ok (c0 :: states.*2) c0 b units) as (c_out & Hco & Hcs & Hcd);
    [done.. | |].
  { constructor; [done|]. apply Forall_fmap. eapply Forall_impl; [exact Hstates|].
    intros [h' c'] [_ [Hs2 Hd2]]. simpl in *. by rewrite Hs2, Hd2, Hsc0, Hdc0. }
  exists y, h_out, c_out. split_and!.
  - by apply (lstm_forward_entries_Ok self inputs obs d d' h_lf c_lf last
                ((h0, c0) :: states) y h_out c_out).
  - rewrite Hys. by destruct time_major.
  - rewrite Hhs, Hsh. simpl. rewrite length_fmap. simpl in Hlen. congruence.
  - congruence.
  - rewrite Hcs, Hsc. simpl. rewrite length_fmap. simpl in Hlen. congruence.
  - congruence.
Qed.

(** The same through [forward]: the inputs satisfy the input specs, and
    the result satisfies the output specs. *)
Lemma lstm_contract_succeeds (self : TfLSTMEncoder.t) ispec inputs obs
    (d : gmap string value) h_in c_in b t feat d_out rest :
  length (TfLSTMEncoder.lstms self)
    = LSTMEncoderConfig.num_lstm_layers (TfLSTMEncoder.config self) →
  1 ≤ LSTMEncoderConfig.num_lstm_layers (TfLSTMEncoder.config self) →
  1 ≤ LSTMEncoderConfig.hidden_dim (TfLSTMEncoder.config self) →
  Forall (λ cell, lstm_accepts cell
            (LSTMEncoderConfig.hidden_dim (TfLSTMEncoder.config self))
            (negb (LSTMEncoderConfig.batch_major (TfLSTMEncoder.config self))))
    (TfLSTMEncoder.lstms self) →
  LSTMEncoderConfig.output_dims (TfLSTMEncoder.config self) = d_out :: rest →
  dense_maps (TfLSTMEncoder.linear self) d_out →
  TfLSTMEncoder.get_input_specs self = Ok ispec →
  validate ispec inputs = None →
  inputs !! SampleBatch.OBS = Some (VTensor obs) →
  inputs !! STATE_IN = Some (VDict d) →
  d !! "h" = Some (VTensor h_in) → d !! "c" = Some (VTensor c_in) →
  further_entries_of_rank_3 d →
  shape obs = seq_shape
    (negb (LSTMEncoderConfig.batch_major (TfLSTMEncoder.config self))) b t feat →
  1 ≤ b → 1 ≤ t → 1 ≤ feat →
  shape h_in !! 0 = Some b → shape c_in !! 0 = Some b →
  dtype h_in = float32 → dtype c_in = float32 →
  ∃ y h_out c_out,
    base.forward self inputs
    = Ok (<[STATE_OUT := VDict (<["c" := VTensor c_out]> (<["h" := VTensor h_out]> ∅))]>
         (<[ENCODER_OUT := VTensor y]> ∅)) ∧
    (shape h_out = shape h_in ∧ dtype h_out = dtype h_in) ∧
    (shape c_out = shape c_in ∧ dtype c_out = dtype c_in).
Proof.
  intros Hlen HL Hu Hcells Hout Hlin Hspec Hval Hobs Hst Hh Hc Hd Hso Hb Ht Hfeat
    Hbh Hbc Hdh Hdc.
  destruct (lstm_input_conforms self ispec inputs Hspec Hval)
    as (obs' & d' & h_in' & c_in' & d0 & rest0 & b' & t' & b_h & b_c
        & _ & _ & _ & Hst' & Hh' & Hsh & Hc' & Hsc).
  rewrite Hst in Hst'. injection Hst' as <-.
  rewrite Hh in Hh'. injection Hh' as <-.
  rewrite Hc in Hc'. injection Hc' as <-.
  rewrite Hsh in Hbh. rewrite Hsc in Hbc. injection Hbh as ->. injection Hbc as ->.
  destruct (lstm_forward_succeeds self inputs obs d h_in c_in _ b t feat _ _ d_out
              Hobs Hst Hh Hc Hd Hso Hsh Hsc Hdh Hdc Hb Ht Hfeat Hu Hlen HL Hcells Hlin)
    as (y & h_out & c_out & Hf & Hys & [Hhs Hhd] & [Hcs Hcd]).
  exists y, h_out, c_out. split_and!; [|done..].
  eapply forward_Ok; [exact Hspec | exact Hval | exact Hf | |]; simpl.
  - unfold TfLSTMEncoder.get_output_specs. by rewrite Hout.
  - unfold validate. rewrite validate_at_dict_cons.
    rewrite lookup_insert_ne, lookup_insert_eq by done. cbv beta match.
    rewrite validate_at_tensor.
    rewrite (check_tensor_btd _ y
      (if negb (LSTMEncoderConfig.batch_major (TfLSTMEncoder.config self)) then t else b)
      (if negb (LSTMEncoderConfig.batch_major (TfLSTMEncoder.config self)) then b else t)
      d_out) by (rewrite Hys; by destruct (negb _)).
    rewrite validate_at_dict_cons, lookup_insert_eq. cbv beta match.
    by rewrite (validate_state _ h_out c_out b b) by congruence.
Qed.

End RecurrentForward.

(** C2, as the code has it. For every encoder, [forward] rejects inputs
    that violate the input specs with an [InputSpecViolation] that names
    a place where they do (a missing key, a wrong rank, a bound
    dimension of another size); whatever it returns satisfies the output
    specs; and a result of [_forward] that violates the output specs is
    turned into an [OutputSpecViolation]. On inputs that satisfy the
    input specs, [forward] of a CNN encoder (built for three input
    dimensions) and of an MLP encoder succeeds; [forward] of a recurrent
    encoder with at least one layer and a hidden size of at least 1
    succeeds when, besides, every entry of the state besides "h" and "c"
    is a tensor of rank 3, "h" and "c" have the batch size of the
    observation and the dtype float32 (the one the observation is cast
    to), and the observation has at least one sequence, one step and one
    feature. A CNN encoder built for [input_dims = (4, 4, 3)] and
    [output_dims = (8,)] maps a (2, 4, 4, 3) observation to a (2, 8)
    tensor and rejects a (2, 5, 4, 3) observation at dimension w of the
    observation. *)
Theorem forward_contract `{Scalars} `{!Keras} `{!KerasShapes} :
  (∀ E (Enc : base.Encoder E) (self : E) inputs ispec,
     base.get_input_specs self = Ok ispec →
     (∀ v, violates [] ispec (VDict inputs) v →
        ∃ v', base.forward self inputs = Raise (InputSpecViolation v') ∧
              violates [] ispec (VDict inputs) v') ∧
     (∀ outputs, base.forward self inputs = Ok outputs →
        validate ispec inputs = None ∧
        ∃ ospec, base.get_output_specs self = Ok ospec ∧
                 validate ospec outputs = None) ∧
     (∀ outputs ospec v,
        validate ispec inputs = None →
        base._forward self inputs = Ok outputs →
        base.get_output_specs self = Ok ospec →
        validate ospec outputs = Some v →
        base.forward self inputs = Raise (OutputSpecViolation v))) ∧
  (∀ config s s' (self : TfCNNEncoder.t) ispec inputs w h c,
     TfCNNEncoder.__init__ config s = (s', Ok self) →
     CNNEncoderConfig.input_dims config = [w; h; c] →
     TfCNNEncoder.get_input_specs self = Ok ispec →
     validate ispec inputs = None →
     is_Ok (base.forward self inputs)) ∧
  (∀ config s s' (self : TfMLPEncoder.t) ispec inputs,
     TfMLPEncoder.__init__ config s = (s', Ok self) →
     TfMLPEncoder.get_input_specs self = Ok ispec →
     validate ispec inputs = None →
     is_Ok (base.forward self inputs)) ∧
  (∀ config s s' (self : TfLSTMEncoder.t) ispec inputs obs
     (d : gmap string value) h_in c_in b t feat,
     TfLSTMEncoder.__init__ config s = (s', Ok self) →
     1 ≤ LSTMEncoderConfig.num_lstm_layers config →
     1 ≤ LSTMEncoderConfig.hidden_dim config →
     TfLSTMEncoder.get_input_specs self = Ok ispec →
     validate ispec inputs = None →
     inputs !! SampleBatch.OBS = Some (VTensor obs) →
     inputs !! STATE_IN = Some (VDict d) →
     d !! "h" = Some (VTensor h_in) →
     d !! "c" = Some (VTensor c_in) →
     further_entries_of_rank_3 d →
     shape obs = seq_shape (negb (LSTMEncoderConfig.batch_major config)) b t feat →
     1 ≤ b → 1 ≤ t → 1 ≤ feat →
     shape h_in !! 0 = Some b → shape c_in !! 0 = Some b →
     dtype h_in = float32 → dtype c_in = float32 →
     is_Ok (base.forward self inputs)) ∧
  (∀ config s s' (self : TfCNNEncoder.t) inputs obs state_in seq_lens,
     TfCNNEncoder.__init__ config s = (s', Ok self) →
     CNNEncoderConfig.input_dims config = [4; 4; 3] →
     CNNEncoderConfig.output_dims config = [8] →
     inputs !! SampleBatch.OBS = Some (VTensor obs) →
     inputs !! STATE_IN = Some state_in →
     inputs !! SampleBatch.SEQ_LENS = Some seq_lens →
     (shape obs = [2; 4; 4; 3] →
        ∃ outputs y, base.forward self inputs = Ok outputs ∧
          outputs !! ENCODER_OUT = Some (VTensor y) ∧ shape y = [2; 8]) ∧
     (shape obs = [2; 5; 4; 3] →
        base.forward self inputs
        = Raise (InputSpecViolation (DimMismatch [SampleBatch.OBS] "w" 4 5)))).
Proof.
  split_and!.
  - intros E Enc self inputs ispec Hspec. split_and!.
    + intros v Hv. apply validate_complete in Hv as [v' Hv'].
      exists v'. split; [by apply forward_input_violation with ispec|].
      by apply validate_sound.
    + intros outputs Hf. apply forward_inv in Hf as (i' & ospec & Hi' & ? & _ & ? & ?).
      rewrite Hspec in Hi'. injection Hi' as <-. split; [done|]. by exists ospec.
    + intros outputs ospec v ? ? ? ?. by eapply forward_output_violation.
  - intros config s s' self ispec inputs w h c Hinit Hin Hspec Hval.
    pose proof (cnn_init_inv _ _ _ _ Hinit) as (Hcfg & _ & _ & d & rest & Hout & _).
    destruct (cnn_forward_succeeds self ispec inputs w h c d rest)
      as (outputs & _ & _ & _ & Hf & _); [by rewrite Hcfg.. | | done | done |].
    { rewrite <- Hin. by eapply cnn_init_net_maps. }
    by exists outputs.
  - intros config s s' self ispec inputs Hinit Hspec Hval.
    pose proof (mlp_init_inv _ _ _ _ Hinit)
      as (Hcfg & _ & din & rest & dout & rest' & Hin & Hout & _).
    destruct (mlp_forward_succeeds self ispec inputs din rest dout rest')
      as (outputs & _ & _ & _ & Hf & _); [by rewrite Hcfg.. | | done | done |].
    { by eapply mlp_init_net_maps. }
    by exists outputs.
  - intros config s s' self ispec inputs obs d h_in c_in b t feat
      Hinit HL Hu Hspec Hval Hobs Hst Hh Hc Hd Hso Hb Ht Hfeat Hbh Hbc Hdh Hdc.
    pose proof (lstm_init_inv _ _ _ _ Hinit) as (Hcfg & _ & _ & d_out & rest & Hout & _).
    destruct (lstm_init_layers _ _ _ _ _ _ Hinit Hout) as (Hlen & Hcells & Hlin).
    destruct (lstm_contract_succeeds self ispec inputs obs d h_in c_in b t feat d_out rest)
      as (y & h_out & c_out & Hf & _); try (rewrite ?Hcfg; done).
    by eexists.
  - intros config s s' self inputs obs state_in seq_lens Hinit Hin Hout Hobs Hst Hsl.
    pose proof (cnn_init_inv _ _ _ _ Hinit) as (Hcfg & _).
    set (ispec := SpecDict [
      (SampleBatch.OBS, SpecTensor (TfTensorSpec "b, w, h, c" [("w", 4); ("h", 4); ("c", 3)]));
      (STATE_IN, SpecNone); (SampleBatch.SEQ_LENS, SpecNone)]).
    assert (Hspec : TfCNNEncoder.get_input_specs self = Ok ispec).
    { unfold TfCNNEncoder.get_input_specs. by rewrite Hcfg, Hin. }
    split; intros Hso.
    + destruct (cnn_forward_succeeds self ispec inputs 4 4 3 8 [])
        as (outputs & obs' & y & b & Hf & Hobs' & Hso' & Hy & Hys);
        [by rewrite Hcfg.. | | exact Hspec | |].
      { rewrite <- Hin. by eapply cnn_init_net_maps. }
      { unfold validate, ispec. rewrite !validate_at_dict_cons, Hobs, Hst, Hsl. simpl.
        unfold check_tensor, rank, full_shape. by rewrite Hso. }
      rewrite Hobs in Hobs'. injection Hobs' as <-.
      rewrite Hso in Hso'. injection Hso' as <-. by exists outputs, y.
    + apply forward_input_violation with (ispec := ispec); [exact Hspec|].
      unfold validate, ispec. rewrite !validate_at_dict_cons, Hobs. simpl.
      unfold check_tensor, rank, full_shape. by rewrite Hso.
Qed.

(** X11. Shapes through [_forward] of a constructed recurrent encoder
    with at least one layer and a hidden size of at least 1, for layers
    with the shapes Keras documents. On an observation for a batch of [b]
    sequences of [t] steps of [d] features, none of the three being zero,
    and a state-in of "h" and "c" of dtype float32 and of shape
    (b, num_lstm_layers, hidden_dim), it returns an encoder-out of the
    sequence shape with [output_dims[0]] features and a state-out whose
    "h" and "c" have the shape and dtype of those given. *)
Theorem lstm_forward_shapes `{Scalars} `{!Keras} `{!KerasShapes}
    (config : LSTMEncoderConfig.t) (s s' : InitState) (self : TfLSTMEncoder.t)
    (inputs : gmap string value) (obs h_in c_in : Tensor) (b t d : nat) :
  TfLSTMEncoder.__init__ config s = (s', Ok self) →
  1 ≤ LSTMEncoderConfig.num_lstm_layers config →
  1 ≤ LSTMEncoderConfig.hidden_dim config →
  inputs !! SampleBatch.OBS = Some (VTensor obs) →
  inputs !! STATE_IN
    = Some (VDict (<["c" := VTensor c_in]> (<["h" := VTensor h_in]> ∅))) →
  shape obs = seq_shape (negb (LSTMEncoderConfig.batch_major config)) b t d →
  1 ≤ b → 1 ≤ t → 1 ≤ d →
  shape h_in = [b; LSTMEncoderConfig.num_lstm_layers config;
                LSTMEncoderConfig.hidden_dim config] →
  shape c_in = [b; LSTMEncoderConfig.num_lstm_layers config;
                LSTMEncoderConfig.hidden_dim config] →
  dtype h_in = float32 → dtype c_in = float32 →
  ∃ y h_out c_out units,
    TfLSTMEncoder._forward self inputs
    = Ok (<[STATE_OUT := VDict (<["c" := VTensor c_out]> (<["h" := VTensor h_out]> ∅))]>
         (<[ENCODER_OUT := VTensor y]> ∅)) ∧
    LSTMEncoderConfig.output_dims config !! 0 = Some units ∧
    shape y = seq_shape (negb (LSTMEncoderConfig.batch_major config)) b t units ∧
    (shape h_out = shape h_in ∧ dtype h_out = float32) ∧
    (shape c_out = shape c_in ∧ dtype c_out = float32).
Proof.
  intros Hinit HL Hu Hobs Hst Hso Hb Ht Hd Hsh Hsc Hdh Hdc.
  pose proof (lstm_init_inv _ _ _ _ Hinit) as (_ & _ & _ & units & rest & Hout & _).
  destruct (lstm_init_layers _ _ _ _ _ _ Hinit Hout) as (Hlen & Hcells & Hlin).
  destruct (lstm_forward_succeeds self inputs obs
              (<["c" := VTensor c_in]> (<["h" := VTensor h_in]> ∅)) h_in c_in
              (LSTMEncoderConfig.num_lstm_layers config) b t d
              (LSTMEncoderConfig.hidden_dim config)
              (negb (LSTMEncoderConfig.batch_major config)) units
              Hobs Hst) as (y & h_out & c_out & Hf & Hys & [Hhs Hhd] & [Hcs Hcd]);
    [by rewrite lookup_insert_ne, lookup_insert_eq | by rewrite lookup_insert_eq
     | apply further_entries_h_c | done..|].
  exists y, h_out, c_out, units. rewrite Hout.
  split_and!; first [done | congruence].
Qed.

(** * The properties on further concrete encoders *)

Section FurtherConcrete.
Import model scenarios.

Lemma mlp_encoder_built :
  TfMLPEncoder.__init__ mlp_config init_state0
  = ((TfMLPEncoder.__init__ mlp_config init_state0).1, Ok mlp_encoder).
Proof. reflexivity. Qed.

Lemma lstm_encoder_2_built :
  TfLSTMEncoder.__init__ lstm_config_2 init_state0
  = ((TfLSTMEncoder.__init__ lstm_config_2 init_state0).1, Ok lstm_encoder_2).
Proof. reflexivity. Qed.

Lemma lstm_encoder_0_built :
  TfLSTMEncoder.__init__ lstm_config_0 init_state0
  = ((TfLSTMEncoder.__init__ lstm_config_0 init_state0).1, Ok lstm_encoder_0).
Proof. reflexivity. Qed.

(** Witness of X3: the CNN encoder without the sequence-lengths key. *)
Lemma cnn_forward_reads_obs_and_state_witness :
  TfCNNEncoder._forward cnn_encoder
    (delete SampleBatch.SEQ_LENS (cnn_inputs [2; 4; 4; 3] VNone))
  = TfCNNEncoder._forward cnn_encoder (cnn_inputs [2; 4; 4; 3] VNone).
Proof.
  destruct (cnn_forward_reads_obs_and_state cnn_encoder
              (cnn_inputs [2; 4; 4; 3] VNone) SampleBatch.SEQ_LENS VNone)
    as [_ Hdel]; [done | done | exact Hdel].
Defined.

(** Witness of X4: the recurrent encoder with a sequence-lengths key. *)
Lemma lstm_forward_reads_obs_and_state_witness :
  TfLSTMEncoder._forward lstm_encoder
    (<[SampleBatch.SEQ_LENS := VTensor (iota [2])]> lstm_inputs_2)
  = TfLSTMEncoder._forward lstm_encoder lstm_inputs_2.
Proof.
  destruct (lstm_forward_reads_obs_and_state lstm_encoder lstm_inputs_2
              SampleBatch.SEQ_LENS (VTensor (iota [2])))
    as [Hins _]; [done | done | exact Hins].
Defined.

(** Witness of X5: a state-in of three entries, a state-out of two. *)
Lemma lstm_forward_output_keys_witness :
  dom (get ∅ (TfLSTMEncoder._forward lstm_encoder lstm_inputs_third_entry))
    = {[ENCODER_OUT; STATE_OUT]} ∧
  ∃ state_out,
    get ∅ (TfLSTMEncoder._forward lstm_encoder lstm_inputs_third_entry) !! STATE_OUT
      = Some (VDict state_out) ∧
    dom state_out = {["h"; "c"]}.
Proof.
  apply (lstm_forward_output_keys lstm_encoder lstm_inputs_third_entry). reflexivity.
Defined.

(** Witness of X6: the encoder constructed for zero layers. *)
Lemma lstm_no_layers_forward_fails_witness :
  ∃ e, TfLSTMEncoder._forward lstm_encoder_0 lstm_inputs_2 = Raise e.
Proof.
  apply (lstm_no_layers_forward_fails lstm_config_0 init_state0 _ lstm_encoder_0
           lstm_inputs_2 lstm_encoder_0_built eq_refl).
Defined.

(** Witness of X7: a step counter of rank 1 in the state. *)
Lemma lstm_forward_rejects_state_entry_witness :
  ∃ e, TfLSTMEncoder._forward lstm_encoder lstm_inputs_extra_entry = Raise e.
Proof.
  apply (lstm_forward_rejects_state_entry lstm_encoder lstm_inputs_extra_entry
           (<["steps" := VTensor (iota [2])]>
              (lstm_state (iota [2; 1; 3]) (iota [2; 1; 3])))
           "steps" (VTensor (iota [2])) eq_refl eq_refl).
  right. exists (iota [2]). split; [reflexivity|]. compute. lia.
Defined.

(** Witness of X8: a tensor as state-in. *)
Lemma lstm_forward_needs_state_mapping_witness :
  ∃ e, TfLSTMEncoder._forward lstm_encoder lstm_inputs_tensor_state = Raise e.
Proof.
  apply (lstm_forward_needs_state_mapping lstm_encoder lstm_inputs_tensor_state
           (VTensor (iota [2; 1; 3])) eq_refl).
  right. by exists (iota [2; 1; 3]).
Defined.

(** Witness of X9: a state-in with "c" only. *)
Lemma lstm_forward_needs_h_and_c_witness :
  TfLSTMEncoder._forward lstm_encoder lstm_inputs_no_h = Raise (KeyError "h").
Proof.
  destruct (lstm_forward_needs_h_and_c lstm_encoder lstm_inputs_no_h
              (<["c" := VTensor (iota [2; 1; 3])]> ∅)) as [_ Hkey].
  - discriminate.
  - reflexivity.
  - by left.
  - apply (Hkey (iota [2; 5; 4])
             (get VNone (tree.map_structure TfLSTMEncoder.layers_first
                (VDict (<["c" := VTensor (iota [2; 1; 3])]> ∅)))));
      reflexivity.
Defined.

(** Witness of X10: two cells, a state for one layer. *)
Lemma lstm_forward_needs_a_slice_per_cell_witness :
  ∃ e, TfLSTMEncoder._forward lstm_encoder_2 lstm_inputs_2 = Raise e.
Proof.
  apply (lstm_forward_needs_a_slice_per_cell lstm_encoder_2 lstm_inputs_2
           (lstm_state (iota [2; 1; 3]) (iota [2; 1; 3])) "h" (iota [2; 1; 3]) 2 1 3
           eq_refl (or_introl eq_refl) eq_refl eq_refl).
  compute. lia.
Defined.

(** Witness of X11: two layers, a batch of 2 sequences of 5 steps. *)
Lemma lstm_forward_shapes_witness :
  ∃ y h_out c_out,
    TfLSTMEncoder._forward lstm_encoder_2 lstm_inputs_2_layers
    = Ok (<[STATE_OUT := VDict (lstm_state h_out c_out)]> (<[ENCODER_OUT := VTensor y]> ∅)) ∧
    shape y = [2; 5; 8] ∧ shape h_out = [2; 2; 3] ∧ shape c_out = [2; 2; 3].
Proof.
  destruct (@lstm_forward_shapes Z_scalars keras model_keras_shapes
              lstm_config_2 init_state0 _ lstm_encoder_2 lstm_inputs_2_layers
              (iota [2; 5; 4]) (iota [2; 2; 3]) (iota [2; 2; 3]) 2 5 4
              lstm_encoder_2_built)
    as (y & h_out & c_out & units & Hf & Hunits & Hy & [Hh _] & [Hc _]);
    [compute; lia | compute; lia | reflexivity | reflexivity | reflexivity
     | lia | lia | lia | reflexivity..|].
  injection Hunits as <-. by exists y, h_out, c_out.
Defined.

(** Witness of C2: the layers of the small model honour the contracts;
    the CNN encoder built for (4, 4, 3) and (8,) maps a (2, 4, 4, 3)
    observation to a (2, 8) tensor and rejects a (2, 5, 4, 3) one; the
    one-layer recurrent encoder accepts a batch of 2 sequences of 5 steps
    with a float32 state for a batch of 2 that carries a third entry of
    rank 3. *)
Lemma forward_contract_witness :
  (∃ outputs y,
     base.forward cnn_encoder (cnn_inputs [2; 4; 4; 3] VNone) = Ok outputs ∧
     outputs !! ENCODER_OUT = Some (VTensor y) ∧ shape y = [2; 8]) ∧
  base.forward cnn_encoder (cnn_inputs [2; 5; 4; 3] VNone)
  = Raise (InputSpecViolation (DimMismatch [SampleBatch.OBS] "w" 4 5)) ∧
  is_Ok (base.forward lstm_encoder lstm_inputs_third_entry).
Proof.
  destruct (@forward_contract Z_scalars keras model_keras_shapes)
    as (_ & _ & _ & Hrecurrent & Hscenario).
  split_and!.
  - apply (Hscenario cnn_config init_state0 _ cnn_encoder
             (cnn_inputs [2; 4; 4; 3] VNone) (iota [2; 4; 4; 3]) VNone VNone
             cnn_encoder_built eq_refl eq_refl eq_refl eq_refl eq_refl).
    reflexivity.
  - apply (Hscenario cnn_config init_state0 _ cnn_encoder
             (cnn_inputs [2; 5; 4; 3] VNone) (iota [2; 5; 4; 3]) VNone VNone
             cnn_encoder_built eq_refl eq_refl eq_refl eq_refl eq_refl).
    reflexivity.
  - apply (Hrecurrent lstm_config init_state0 _ lstm_encoder
             (get SpecNone (TfLSTMEncoder.get_input_specs lstm_encoder))
             lstm_inputs_third_entry (iota [2; 5; 4])
             (<["m" := VTensor (iota [2; 1; 3])]>
                (lstm_state (iota [2; 1; 3]) (iota [2; 1; 3])))
             (iota [2; 1; 3]) (iota [2; 1; 3]) 2 5 4 lstm_encoder_built);
      [compute; lia | compute; lia | reflexivity | reflexivity | reflexivity
       | reflexivity | reflexivity | reflexivity | | reflexivity | lia | lia | lia
       | reflexivity..].
    intros k v Hk. unfold lstm_state in Hk.
    destruct (decide (k = "m")) as [->|Hm].
    { rewrite lookup_insert_eq in Hk. injection Hk as <-.
      eexists. split; [reflexivity|]. right. right. reflexivity. }
    rewrite lookup_insert_ne in Hk by done.
    destruct (decide (k = "c")) as [->|Hc].
    { rewrite lookup_insert_eq in Hk. injection Hk as <-. eauto. }
    rewrite lookup_insert_ne in Hk by done.
    destruct (decide (k = "h")) as [->|Hh].
    { rewrite lookup_insert_eq in Hk. injection Hk as <-. eauto. }
    rewrite lookup_insert_ne in Hk by done. by rewrite lookup_empty in Hk.
Defined.

(** Witness of X16: the CNN encoder on a (2, 4, 4, 3) observation and
    the MLP encoder on a (2, 4) observation. *)
Lemma stateless_forward_shapes_witness :
  (∃ y, TfCNNEncoder._forward cnn_encoder (cnn_inputs [2; 4; 4; 3] VNone)
        = Ok (<[STATE_OUT := VNone]> (<[ENCODER_OUT := VTensor y]> ∅)) ∧
        shape y = [2; 8]) ∧
  (∃ y, TfMLPEncoder._forward mlp_encoder (mlp_inputs [2; 4])
        = Ok (<[STATE_OUT := VNone]> (<[ENCODER_OUT := VTensor y]> ∅)) ∧
        shape y = [2; 8]).
Proof.
  destruct (@stateless_forward_shapes Z_scalars keras model_keras_shapes init_state0
              (TfCNNEncoder.__init__ cnn_config init_state0).1) as [Hcnn _].
  destruct (@stateless_forward_shapes Z_scalars keras model_keras_shapes init_state0
              (TfMLPEncoder.__init__ mlp_config init_state0).1) as [_ Hmlp].
  split.
  - destruct (Hcnn cnn_config cnn_encoder (cnn_inputs [2; 4; 4; 3] VNone)
                (iota [2; 4; 4; 3]) 2 VNone cnn_encoder_built eq_refl eq_refl eq_refl)
      as (y & units & Hf & Hunits & Hy).
    injection Hunits as <-. by exists y.
  - destruct (Hmlp mlp_config mlp_encoder (mlp_inputs [2; 4])
                (iota [2; 4]) 2 4 mlp_encoder_built eq_refl eq_refl eq_refl)
      as (y & units & Hf & Hunits & Hy).
    injection Hunits as <-. by exists y.
Defined.

(** Witness of X17: a third state entry of rank 3 changes nothing. *)
Lemma lstm_forward_ignores_further_state_entries_witness :
  TfLSTMEncoder._forward lstm_encoder lstm_inputs_third_entry
  = TfLSTMEncoder._forward lstm_encoder lstm_inputs_2.
Proof.
  apply (lstm_forward_ignores_further_state_entries lstm_encoder lstm_inputs_third_entry
           (<["m" := VTensor (iota [2; 1; 3])]>
              (lstm_state (iota [2; 1; 3]) (iota [2; 1; 3])))
           (iota [2; 1; 3]) (iota [2; 1; 3]) eq_refl eq_refl eq_refl).
  intros k v Hk. unfold lstm_state in Hk.
  destruct (decide (k = "m")) as [->|Hm].
  { rewrite lookup_insert_eq in Hk. injection Hk as <-.
    eexists. split; [reflexivity|]. right. right. reflexivity. }
  rewrite lookup_insert_ne in Hk by done.
  destruct (decide (k = "c")) as [->|Hc].
  { rewrite lookup_insert_eq in Hk. injection Hk as <-. eauto. }
  rewrite lookup_insert_ne in Hk by done.
  destruct (decide (k = "h")) as [->|Hh].
  { rewrite lookup_insert_eq in Hk. injection Hk as <-. eauto. }
  rewrite lookup_insert_ne in Hk by done. by rewrite lookup_empty in Hk.
Defined.

End FurtherConcrete.
